(** * no-useless-else: the AST rule of [lib/rules/no-useless-else.js]

    A shallow embedding of the rule that reports an [else] made redundant
    because every [if] branch before it leaves by a jump statement, together
    with the token-level computation of its fix.

    Layout: a small model of the JavaScript values the rule manipulates, the
    ESTree nodes it reads, the token store it queries, then the rule's own
    functions (same names as in the source), the tree traversal that drives
    the listener, concrete programs, and finally the properties. *)

From Stdlib Require Import String Ascii ZArith Lia.
From stdpp Require Import base option list strings gmap.

Local Open Scope string_scope.
Local Open Scope list_scope.
Local Set Warnings "-register-all".

(** ** JavaScript outcomes and values *)

Module JS.

(** A call either returns or throws; the exception the rule can meet is
    the [TypeError] of reading a property of [undefined] or [null] (the
    reporter's refusal of a missing token is counted with it). *)
Inductive result (A : Type) : Type :=
| Ok (a : A)
| TypeError.
Global Arguments Ok {A} a.
Global Arguments TypeError {A}.

Global Instance result_ret : MRet result := fun A a => Ok a.
Global Instance result_bind : MBind result :=
  fun A B f r => match r with Ok a => f a | TypeError => TypeError end.
Global Instance result_fmap : FMap result :=
  fun A B f r => match r with Ok a => Ok (f a) | TypeError => TypeError end.

(** Dereferencing a reference that may be [null]. *)
Definition deref {A : Type} (o : option A) : result A :=
  match o with Some a => Ok a | None => TypeError end.

Definition is_ok {A : Type} (r : result A) : bool :=
  match r with Ok _ => true | TypeError => false end.

(** The values the predicates of the rule evaluate to: [a && b] returns
    [a] itself when [a] is falsy, so besides booleans they can yield
    [undefined] (a missing array element or property) and [null] (an
    absent [alternate]). *)
Inductive value : Type :=
| VUndefined
| VNull
| VBool (b : bool).

(** ToBoolean. *)
Definition truthy (v : value) : bool :=
  match v with VBool b => b | _ => false end.

(** [Array.prototype.some]: stops at the first truthy answer. *)
Fixpoint some {A : Type} (f : A -> result value) (l : list A) : result bool :=
  match l with
  | [] => Ok false
  | x :: xs => v ← f x; if truthy v then Ok true else some f xs
  end.

(** [Array.prototype.every]: stops at the first falsy answer. *)
Fixpoint every {A : Type} (f : A -> result value) (l : list A) : result bool :=
  match l with
  | [] => Ok true
  | x :: xs => v ← f x; if truthy v then every f xs else Ok false
  end.

(** [String.prototype.slice(from, to)] with its treatment of negative
    and out-of-range indices. *)
Definition clamp (len i : Z) : Z :=
  if (i <? 0)%Z then Z.max (len + i) 0 else Z.min i len.

Definition slice (s : string) (from to : Z) : string :=
  let len := Z.of_nat (String.length s) in
  let a := clamp len from in
  let b := clamp len to in
  substring (Z.to_nat a) (Z.to_nat (Z.max (b - a) 0)) s.

(** [/^[([/+`-]/.test(s)]: the first character is one of the six. *)
Definition hazard_chars : list ascii :=
  [ "("%char; "["%char; "/"%char; "+"%char; "`"%char; "-"%char ].

Definition test_hazard (s : string) : bool :=
  match s with
  | EmptyString => false
  | String c _ => bool_decide (c ∈ hazard_chars)
  end.

End JS.
Export JS.

(** ** ESTree nodes

    The rule reads [type], [body], [consequent], [alternate] and the source
    range of a node.  [IfStatement] and [BlockStatement] carry the fields of
    their ESTree shape; every other kind of node (statements, expressions,
    [Program], ...) is an [OtherNode] with its [type] string and its child
    nodes in visitor-key order.  *)

Inductive node : Type :=
| IfStatement (range : nat * nat) (test consequent : node) (alternate : option node)
| BlockStatement (range : nat * nat) (body : list node)
| OtherNode (type : string) (range : nat * nat) (children : list node).

(** [node.type] *)
Definition node_type (n : node) : string :=
  match n with
  | IfStatement _ _ _ _ => "IfStatement"
  | BlockStatement _ _ => "BlockStatement"
  | OtherNode ty _ _ => ty
  end.

Definition node_range (n : node) : nat * nat :=
  match n with
  | IfStatement r _ _ _ | BlockStatement r _ | OtherNode _ r _ => r
  end.

(** [node.start], [node.end] *)
Definition node_start (n : node) : nat := fst (node_range n).
Definition node_end (n : node) : nat := snd (node_range n).

(** A property read: the property is missing ([undefined]), [null], or a
    node. *)
Inductive field : Type :=
| Undefined
| Null
| Obj (n : node).

(** [node.alternate] *)
Definition node_alternate (n : node) : field :=
  match n with
  | IfStatement _ _ _ (Some a) => Obj a
  | IfStatement _ _ _ None => Null
  | _ => Undefined
  end.

(** [node.consequent] *)
Definition node_consequent (n : node) : field :=
  match n with
  | IfStatement _ _ c _ => Obj c
  | _ => Undefined
  end.

(** [node.body], as read from a node whose [type] is ["BlockStatement"] *)
Definition node_body (n : node) : option (list node) :=
  match n with
  | BlockStatement _ b => Some b
  | _ => None
  end.

(** An [OtherNode] really is of another kind: no node claims to be an
    [IfStatement] or a [BlockStatement] without having its fields. *)
Fixpoint well_formed (n : node) : bool :=
  match n with
  | IfStatement _ t c a =>
      well_formed t && well_formed c &&
      match a with Some a' => well_formed a' | None => true end
  | BlockStatement _ b => forallb well_formed b
  | OtherNode ty _ ch =>
      negb (String.eqb ty "IfStatement") &&
      negb (String.eqb ty "BlockStatement") &&
      forallb well_formed ch
  end.

(** Induction over nodes that reaches inside the child lists. *)
Section NodeInd.
Variable P : node -> Prop.
Hypothesis HIf : forall r t c a,
    P t -> P c -> match a with Some a' => P a' | None => True end ->
    P (IfStatement r t c a).
Hypothesis HBlock : forall r b, Forall P b -> P (BlockStatement r b).
Hypothesis HOther : forall ty r ch, Forall P ch -> P (OtherNode ty r ch).

Fixpoint node_ind' (n : node) : P n :=
  let fix go (l : list node) : Forall P l :=
    match l with
    | [] => @List.Forall_nil node P
    | x :: xs => @List.Forall_cons node P x xs (node_ind' x) (go xs)
    end in
  match n with
  | IfStatement r t c a =>
      HIf r t c a (node_ind' t) (node_ind' c)
        (match a as o return match o with Some a' => P a' | None => True end with
         | Some x => node_ind' x
         | None => I
         end)
  | BlockStatement r b => HBlock r b (go b)
  | OtherNode ty r ch => HOther ty r ch (go ch)
  end.
End NodeInd.

(** ** Tokens and the source-code object *)

(** A token: [type], [value], [start], [end] and [loc.start.line]. *)
Record Token : Type := Tok {
  tok_type : string;
  tok_value : string;
  tok_start : nat;
  tok_end : nat;
  tok_line : nat
}.

(** The source text and its tokens in source order. *)
Record SourceCode : Type := {
  text : string;
  tokens : list Token
}.

Section TokenStore.
Variable sourceCode : SourceCode.

(** The token navigation of the external [SourceCode] object is not part
    of the rule; section 6 of the specification names the queries: "first
    token of node", "token immediately before/after a given token", "source
    text slice for a node".  A query without an answer yields [null], here
    [None]. *)

(** Modelled from the spec: [sourceCode.getFirstToken(node)], the first
    token that starts inside the node. *)
Definition getFirstToken (n : node) : option Token :=
  head (filter (fun t => node_start n <= tok_start t) (tokens sourceCode)).

(** Modelled from the spec: [sourceCode.getLastToken(node)], the last token
    that ends inside the node. *)
Definition getLastToken (n : node) : option Token :=
  last (filter (fun t => tok_end t <= node_end n) (tokens sourceCode)).

(** Modelled from the spec: [sourceCode.getTokenBefore(token)], the token
    immediately before a token. *)
Definition getTokenBefore (t : Token) : option Token :=
  last (filter (fun u => tok_end u <= tok_start t) (tokens sourceCode)).

(** Modelled from the spec: [sourceCode.getTokenAfter(token)], the token
    immediately after a token. *)
Definition getTokenAfter (t : Token) : option Token :=
  head (filter (fun u => tok_end t <= tok_start u) (tokens sourceCode)).

(** Modelled from the spec: [sourceCode.getText(node)], the source text
    slice of the node. *)
Definition getText (n : node) : string :=
  slice (text sourceCode) (Z.of_nat (node_start n)) (Z.of_nat (node_end n)).

End TokenStore.

(** What [fixer.replaceTextRange] returns. *)
Record Fix : Type := {
  fix_range : nat * nat;
  fix_text : string
}.

(** What [context.report] receives: the token the problem is attached to,
    the message, and the outcome of the [fix] callback ([None] for the
    callback's [null]). *)
Record Diagnostic : Type := {
  diag_node : Token;
  message : string;
  diag_fix : option Fix
}.

(** Modelled from the spec: the external patch engine, for one replacement
    (section 1, "takes text-range replacements and produces final output
    text"). *)
Definition applyFix (src : string) (f : Fix) : string :=
  slice src 0 (Z.of_nat (fst (fix_range f))) +:+ fix_text f +:+
  substring (snd (fix_range f)) (String.length src - snd (fix_range f)) src.

(** ** The rule *)

Definition CONTROL_FLOW_TYPES : gset string :=
  {[ "ReturnStatement"; "ThrowStatement"; "BreakStatement"; "ContinueStatement" ]}.

(** [Set.prototype.has] *)
Definition has (s : gset string) (x : string) : bool := bool_decide (x ∈ s).

(** [obj.prop] where [obj] was read from a property: reading through
    [undefined] or [null] throws. *)
Definition field_deref (f : field) : result node :=
  match f with Obj n => Ok n | _ => TypeError end.

Definition is_open_brace (t : Token) : bool :=
  String.eqb (tok_type t) "Punctuator" && String.eqb (tok_value t) "{".

Section Rule.
Variable sourceCode : SourceCode.

(** The [fix] callback of [displayReport].  [parent] is [node.parent], the
    last [IfStatement] of the chain, passed along because the tree has no
    parent pointers.  The conjunctions short-circuit as in the source, so a
    token is only dereferenced where the source dereferences it. *)
Definition report_fix (parent n : node) (startToken elseToken : Token)
  : result (option Fix) :=
  let source := getText sourceCode n in
  let lastIfToken := getTokenBefore sourceCode elseToken in
  let firstTokenOfElseBlock :=
    if is_open_brace startToken then getTokenAfter sourceCode startToken
    else Some startToken in
  consequent ← field_deref (node_consequent parent);
  ifBlockMaybeUnsafe ←
    (if negb (String.eqb (node_type consequent) "BlockStatement")
     then t ← deref lastIfToken; Ok (negb (String.eqb (tok_value t) ";"))
     else Ok false);
  first ← deref firstTokenOfElseBlock;
  let elseBlockUnsafe := test_hazard (tok_value first) in
  if ifBlockMaybeUnsafe && elseBlockUnsafe then Ok None
  else
    endToken ← deref (getLastToken sourceCode n);
    lastTokenOfElseBlock ← deref (getTokenBefore sourceCode endToken);
    let unsafeTail :=
      if negb (String.eqb (tok_value lastTokenOfElseBlock) ";") then
        match getTokenAfter sourceCode endToken with
        | None => false
        | Some nextToken =>
            let nextTokenUnsafe := test_hazard (tok_value nextToken) in
            let nextTokenOnSameLine :=
              Nat.eqb (tok_line nextToken) (tok_line lastTokenOfElseBlock) in
            nextTokenUnsafe ||
            (nextTokenOnSameLine && negb (String.eqb (tok_value nextToken) "}"))
        end
      else false in
    if unsafeTail then Ok None
    else
      let fixedSource :=
        if is_open_brace startToken then slice source 1 (-1) else source in
      Ok (Some {| fix_range := (tok_start elseToken, node_end n);
                  fix_text := fixedSource |}).

(** [displayReport(node)]: [n] is the [IfStatement.alternate] to report.
    A missing token makes the call throw. *)
Definition displayReport (parent n : node) : result Diagnostic :=
  startToken ← deref (getFirstToken sourceCode n);
  elseToken ← deref (getTokenBefore sourceCode startToken);
  f ← report_fix parent n startToken elseToken;
  Ok {| diag_node := elseToken;
        message := "Using 'else' is unnecessary here.";
        diag_fix := f |}.

(** [checkForControlJump(node)] *)
Definition checkForControlJump (n : node) : bool :=
  has CONTROL_FLOW_TYPES (node_type n).

(** [naiveHasControlJump(node)]: only the last statement of a block is
    looked at; [lastChildNode && ...] is [undefined] for an empty body. *)
Definition naiveHasControlJump (n : node) : result value :=
  if String.eqb (node_type n) "BlockStatement" then
    body ← deref (node_body n);
    match last body with
    | None => Ok VUndefined
    | Some lastChildNode => Ok (VBool (checkForControlJump lastChildNode))
    end
  else Ok (VBool (checkForControlJump n)).

(** [hasElse(node)]:
    [node.alternate && node.consequent && node.alternate.type !== "IfStatement"] *)
Definition hasElse (n : node) : value :=
  match node_alternate n with
  | Undefined => VUndefined
  | Null => VNull
  | Obj a =>
      match node_consequent n with
      | Undefined => VUndefined
      | Null => VNull
      | Obj _ => VBool (negb (String.eqb (node_type a) "IfStatement"))
      end
  end.

(** [checkForIf(node)] *)
Definition checkForIf (n : node) : result value :=
  if negb (String.eqb (node_type n) "IfStatement") then Ok (VBool false)
  else
    let e := hasElse n in
    if negb (truthy e) then Ok e
    else
      a ← field_deref (node_alternate n);
      ja ← naiveHasControlJump a;
      if negb (truthy ja) then Ok ja
      else
        c ← field_deref (node_consequent n);
        naiveHasControlJump c.

(** [checkForControlJumpOrIf(node)] *)
Definition checkForControlJumpOrIf (n : node) : result value :=
  if checkForControlJump n then Ok (VBool true) else checkForIf n.

(** [alwaysHasControlFlow(node)] *)
Definition alwaysHasControlFlow (n : node) : result value :=
  if String.eqb (node_type n) "BlockStatement" then
    body ← deref (node_body n);
    b ← some checkForControlJumpOrIf body;
    Ok (VBool b)
  else checkForControlJumpOrIf n.

End Rule.

(** ** The listener and the traversal *)

(** The property of the parent under which a node hangs.  A node object
    occurs once in the tree, so [parent.alternate === node] holds exactly
    for the child reached through the [alternate] key. *)
Inductive key : Type :=
| KTest
| KConsequent
| KAlternate
| KBody
| KChild.

Definition is_alternate (k : key) : bool :=
  match k with KAlternate => true | _ => false end.

(** The [for] loop of the listener:
    [for (consequents = []; node.type === "IfStatement"; node = node.alternate)].
    [None] is the [return] taken inside the loop; otherwise the loop ends
    with the collected [consequents] and the last value assigned to
    [alternate], paired with the [IfStatement] it was read from. *)
Fixpoint chainWalk (n : node) (consequents : list node)
    (alternate : option (node * node)) : option (list node * option (node * node)) :=
  match n with
  | IfStatement _ _ c (Some a) => chainWalk a (consequents ++ [c]) (Some (n, a))
  | IfStatement _ _ _ None => None
  | BlockStatement _ _ => Some (consequents, alternate)
  | OtherNode ty _ _ =>
      if String.eqb ty "IfStatement" then None
      else Some (consequents, alternate)
  end.

Section Listener.
Variable sourceCode : SourceCode.

(** ["IfStatement:exit"(node)].  [ancestor] is what
    [context.getAncestors().pop()] gives: the parent and the key of [n] in
    it, or nothing for a root. *)
Definition IfStatement_exit (ancestor : option (node * key)) (n : node)
  : result (list Diagnostic) :=
  '(parent, k) ← deref ancestor;
  if String.eqb (node_type parent) "IfStatement" && is_alternate k then Ok []
  else
    match chainWalk n [] None with
    | None => Ok []
    | Some (consequents, alternate) =>
        eligible ← every alwaysHasControlFlow consequents;
        if (eligible : bool) then
          '(p, a) ← deref alternate;
          d ← displayReport sourceCode p a;
          Ok [d]
        else Ok []
    end.

(** Modelled from the spec: the external traverser (section 5, "single-pass
    tree traversal"), which leaves a node after all its children and then
    fires the [:exit] listener registered for the node's type.  The
    diagnostics come out in the order they are reported. *)
Fixpoint traverse (ancestor : option (node * key)) (n : node) {struct n}
  : result (list Diagnostic) :=
  let fix traverseList (k : key) (l : list node) : result (list Diagnostic) :=
    match l with
    | [] => Ok []
    | x :: xs =>
        r ← traverse (Some (n, k)) x;
        rs ← traverseList k xs;
        Ok (r ++ rs)
    end in
  inner ←
    match n with
    | IfStatement _ t c a =>
        rt ← traverse (Some (n, KTest)) t;
        rc ← traverse (Some (n, KConsequent)) c;
        ra ← match a with
             | Some a' => traverse (Some (n, KAlternate)) a'
             | None => Ok []
             end;
        Ok (rt ++ rc ++ ra)
    | BlockStatement _ b => traverseList KBody b
    | OtherNode _ _ ch => traverseList KChild ch
    end;
  own ← (if String.eqb (node_type n) "IfStatement"
         then IfStatement_exit ancestor n else Ok []);
  Ok (inner ++ own).

(** Linting a program: the traversal from the root. *)
Definition lint (root : node) : result (list Diagnostic) :=
  traverse None root.

End Listener.

(** ** Concrete programs

    Source text, tokens and tree of the programs used below, as the parser
    delivers them: offsets count characters from 0, lines from 1.  The
    [IfStatement] nodes of a program are numbered in source order, with
    their branches named [_then] and [_else]. *)

(** Every token's [value] is the text between its [start] and [end], and
    the tokens come in source order without overlap. *)
Fixpoint tokens_sorted (from : nat) (l : list Token) : bool :=
  match l with
  | [] => true
  | t :: l' =>
      Nat.leb from (tok_start t) && Nat.ltb (tok_start t) (tok_end t) &&
      tokens_sorted (tok_end t) l'
  end.

Definition tokens_agree (sc : SourceCode) : bool :=
  tokens_sorted 0 (tokens sc) &&
  forallb (fun t => String.eqb (slice (text sc) (Z.of_nat (tok_start t))
                                  (Z.of_nat (tok_end t))) (tok_value t))
          (tokens sc).

(** Scenario 1 of the specification. *)
Definition scenario1_text : string :=
  "function f(){ if (x) { return y; } else { return z; } }".

Definition scenario1_tokens : list Token :=
  [ Tok "Keyword" "function" 0 8 1;
    Tok "Identifier" "f" 9 10 1;
    Tok "Punctuator" "(" 10 11 1;
    Tok "Punctuator" ")" 11 12 1;
    Tok "Punctuator" "{" 12 13 1;
    Tok "Keyword" "if" 14 16 1;
    Tok "Punctuator" "(" 17 18 1;
    Tok "Identifier" "x" 18 19 1;
    Tok "Punctuator" ")" 19 20 1;
    Tok "Punctuator" "{" 21 22 1;
    Tok "Keyword" "return" 23 29 1;
    Tok "Identifier" "y" 30 31 1;
    Tok "Punctuator" ";" 31 32 1;
    Tok "Punctuator" "}" 33 34 1;
    Tok "Keyword" "else" 35 39 1;
    Tok "Punctuator" "{" 40 41 1;
    Tok "Keyword" "return" 42 48 1;
    Tok "Identifier" "z" 49 50 1;
    Tok "Punctuator" ";" 50 51 1;
    Tok "Punctuator" "}" 52 53 1;
    Tok "Punctuator" "}" 54 55 1 ].

Definition scenario1_if1_then : node :=
  (BlockStatement (21, 34) [
    (OtherNode "ReturnStatement" (23, 32) [
      (OtherNode "Identifier" (30, 31) []) ]) ]).

Definition scenario1_if1_else : node :=
  (BlockStatement (40, 53) [
    (OtherNode "ReturnStatement" (42, 51) [
      (OtherNode "Identifier" (49, 50) []) ]) ]).

Definition scenario1_if1 : node :=
  IfStatement (14, 53)
    (OtherNode "Identifier" (18, 19) [])
    scenario1_if1_then
    (Some scenario1_if1_else).

Definition scenario1_ast : node :=
  (OtherNode "Program" (0, 55) [
    (OtherNode "FunctionDeclaration" (0, 55) [
      (OtherNode "Identifier" (9, 10) []);
      (BlockStatement (12, 55) [
        scenario1_if1 ]) ]) ]).

Definition scenario1 : SourceCode :=
  {| text := scenario1_text; tokens := scenario1_tokens |}.

(** Scenario 2 of the specification. *)
Definition scenario2_text : string :=
  "function f(){ if (x) { return y; } else if (z) { return w; } else { return t; } }".

Definition scenario2_tokens : list Token :=
  [ Tok "Keyword" "function" 0 8 1;
    Tok "Identifier" "f" 9 10 1;
    Tok "Punctuator" "(" 10 11 1;
    Tok "Punctuator" ")" 11 12 1;
    Tok "Punctuator" "{" 12 13 1;
    Tok "Keyword" "if" 14 16 1;
    Tok "Punctuator" "(" 17 18 1;
    Tok "Identifier" "x" 18 19 1;
    Tok "Punctuator" ")" 19 20 1;
    Tok "Punctuator" "{" 21 22 1;
    Tok "Keyword" "return" 23 29 1;
    Tok "Identifier" "y" 30 31 1;
    Tok "Punctuator" ";" 31 32 1;
    Tok "Punctuator" "}" 33 34 1;
    Tok "Keyword" "else" 35 39 1;
    Tok "Keyword" "if" 40 42 1;
    Tok "Punctuator" "(" 43 44 1;
    Tok "Identifier" "z" 44 45 1;
    Tok "Punctuator" ")" 45 46 1;
    Tok "Punctuator" "{" 47 48 1;
    Tok "Keyword" "return" 49 55 1;
    Tok "Identifier" "w" 56 57 1;
    Tok "Punctuator" ";" 57 58 1;
    Tok "Punctuator" "}" 59 60 1;
    Tok "Keyword" "else" 61 65 1;
    Tok "Punctuator" "{" 66 67 1;
    Tok "Keyword" "return" 68 74 1;
    Tok "Identifier" "t" 75 76 1;
    Tok "Punctuator" ";" 76 77 1;
    Tok "Punctuator" "}" 78 79 1;
    Tok "Punctuator" "}" 80 81 1 ].

Definition scenario2_if1_then : node :=
  (BlockStatement (21, 34) [
    (OtherNode "ReturnStatement" (23, 32) [
      (OtherNode "Identifier" (30, 31) []) ]) ]).

Definition scenario2_if2_then : node :=
  (BlockStatement (47, 60) [
    (OtherNode "ReturnStatement" (49, 58) [
      (OtherNode "Identifier" (56, 57) []) ]) ]).

Definition scenario2_if2_else : node :=
  (BlockStatement (66, 79) [
    (OtherNode "ReturnStatement" (68, 77) [
      (OtherNode "Identifier" (75, 76) []) ]) ]).

Definition scenario2_if2 : node :=
  IfStatement (40, 79)
    (OtherNode "Identifier" (44, 45) [])
    scenario2_if2_then
    (Some scenario2_if2_else).

Definition scenario2_if1 : node :=
  IfStatement (14, 79)
    (OtherNode "Identifier" (18, 19) [])
    scenario2_if1_then
    (Some scenario2_if2).

Definition scenario2_ast : node :=
  (OtherNode "Program" (0, 81) [
    (OtherNode "FunctionDeclaration" (0, 81) [
      (OtherNode "Identifier" (9, 10) []);
      (BlockStatement (12, 81) [
        scenario2_if1 ]) ]) ]).

Definition scenario2 : SourceCode :=
  {| text := scenario2_text; tokens := scenario2_tokens |}.

(** Scenario 4 of the specification (a top-level [return], as the tests allow). *)
Definition scenario4_text : string :=
  "if (foo) return bar; else (foo).bar();".

Definition scenario4_tokens : list Token :=
  [ Tok "Keyword" "if" 0 2 1;
    Tok "Punctuator" "(" 3 4 1;
    Tok "Identifier" "foo" 4 7 1;
    Tok "Punctuator" ")" 7 8 1;
    Tok "Keyword" "return" 9 15 1;
    Tok "Identifier" "bar" 16 19 1;
    Tok "Punctuator" ";" 19 20 1;
    Tok "Keyword" "else" 21 25 1;
    Tok "Punctuator" "(" 26 27 1;
    Tok "Identifier" "foo" 27 30 1;
    Tok "Punctuator" ")" 30 31 1;
    Tok "Punctuator" "." 31 32 1;
    Tok "Identifier" "bar" 32 35 1;
    Tok "Punctuator" "(" 35 36 1;
    Tok "Punctuator" ")" 36 37 1;
    Tok "Punctuator" ";" 37 38 1 ].

Definition scenario4_if1_then : node :=
  (OtherNode "ReturnStatement" (9, 20) [
    (OtherNode "Identifier" (16, 19) []) ]).

Definition scenario4_if1_else : node :=
  (OtherNode "ExpressionStatement" (26, 38) [
    (OtherNode "CallExpression" (26, 37) [
      (OtherNode "MemberExpression" (26, 35) [
        (OtherNode "Identifier" (27, 30) []);
        (OtherNode "Identifier" (32, 35) []) ]) ]) ]).

Definition scenario4_if1 : node :=
  IfStatement (0, 38)
    (OtherNode "Identifier" (4, 7) [])
    scenario4_if1_then
    (Some scenario4_if1_else).

Definition scenario4_ast : node :=
  (OtherNode "Program" (0, 38) [
    scenario4_if1 ]).

Definition scenario4 : SourceCode :=
  {| text := scenario4_text; tokens := scenario4_tokens |}.

(** Scenario 5 of the specification, inside the function of scenario 1. *)
Definition scenario5_text : string :=
  "function f(){ if (x) { if (y) { return y; } else { return x; } } else { return z; } }".

Definition scenario5_tokens : list Token :=
  [ Tok "Keyword" "function" 0 8 1;
    Tok "Identifier" "f" 9 10 1;
    Tok "Punctuator" "(" 10 11 1;
    Tok "Punctuator" ")" 11 12 1;
    Tok "Punctuator" "{" 12 13 1;
    Tok "Keyword" "if" 14 16 1;
    Tok "Punctuator" "(" 17 18 1;
    Tok "Identifier" "x" 18 19 1;
    Tok "Punctuator" ")" 19 20 1;
    Tok "Punctuator" "{" 21 22 1;
    Tok "Keyword" "if" 23 25 1;
    Tok "Punctuator" "(" 26 27 1;
    Tok "Identifier" "y" 27 28 1;
    Tok "Punctuator" ")" 28 29 1;
    Tok "Punctuator" "{" 30 31 1;
    Tok "Keyword" "return" 32 38 1;
    Tok "Identifier" "y" 39 40 1;
    Tok "Punctuator" ";" 40 41 1;
    Tok "Punctuator" "}" 42 43 1;
    Tok "Keyword" "else" 44 48 1;
    Tok "Punctuator" "{" 49 50 1;
    Tok "Keyword" "return" 51 57 1;
    Tok "Identifier" "x" 58 59 1;
    Tok "Punctuator" ";" 59 60 1;
    Tok "Punctuator" "}" 61 62 1;
    Tok "Punctuator" "}" 63 64 1;
    Tok "Keyword" "else" 65 69 1;
    Tok "Punctuator" "{" 70 71 1;
    Tok "Keyword" "return" 72 78 1;
    Tok "Identifier" "z" 79 80 1;
    Tok "Punctuator" ";" 80 81 1;
    Tok "Punctuator" "}" 82 83 1;
    Tok "Punctuator" "}" 84 85 1 ].

Definition scenario5_if2_then : node :=
  (BlockStatement (30, 43) [
    (OtherNode "ReturnStatement" (32, 41) [
      (OtherNode "Identifier" (39, 40) []) ]) ]).

Definition scenario5_if2_else : node :=
  (BlockStatement (49, 62) [
    (OtherNode "ReturnStatement" (51, 60) [
      (OtherNode "Identifier" (58, 59) []) ]) ]).

Definition scenario5_if2 : node :=
  IfStatement (23, 62)
    (OtherNode "Identifier" (27, 28) [])
    scenario5_if2_then
    (Some scenario5_if2_else).

Definition scenario5_if1_then : node :=
  (BlockStatement (21, 64) [
    scenario5_if2 ]).

Definition scenario5_if1_else : node :=
  (BlockStatement (70, 83) [
    (OtherNode "ReturnStatement" (72, 81) [
      (OtherNode "Identifier" (79, 80) []) ]) ]).

Definition scenario5_if1 : node :=
  IfStatement (14, 83)
    (OtherNode "Identifier" (18, 19) [])
    scenario5_if1_then
    (Some scenario5_if1_else).

Definition scenario5_ast : node :=
  (OtherNode "Program" (0, 85) [
    (OtherNode "FunctionDeclaration" (0, 85) [
      (OtherNode "Identifier" (9, 10) []);
      (BlockStatement (12, 85) [
        scenario5_if1 ]) ]) ]).

Definition scenario5 : SourceCode :=
  {| text := scenario5_text; tokens := scenario5_tokens |}.

(** A consequent whose [return] is followed by another statement. *)
Definition deadTail_text : string :=
  "function f(){ if (x) { return y; foo(); } else { bar(); } }".

Definition deadTail_tokens : list Token :=
  [ Tok "Keyword" "function" 0 8 1;
    Tok "Identifier" "f" 9 10 1;
    Tok "Punctuator" "(" 10 11 1;
    Tok "Punctuator" ")" 11 12 1;
    Tok "Punctuator" "{" 12 13 1;
    Tok "Keyword" "if" 14 16 1;
    Tok "Punctuator" "(" 17 18 1;
    Tok "Identifier" "x" 18 19 1;
    Tok "Punctuator" ")" 19 20 1;
    Tok "Punctuator" "{" 21 22 1;
    Tok "Keyword" "return" 23 29 1;
    Tok "Identifier" "y" 30 31 1;
    Tok "Punctuator" ";" 31 32 1;
    Tok "Identifier" "foo" 33 36 1;
    Tok "Punctuator" "(" 36 37 1;
    Tok "Punctuator" ")" 37 38 1;
    Tok "Punctuator" ";" 38 39 1;
    Tok "Punctuator" "}" 40 41 1;
    Tok "Keyword" "else" 42 46 1;
    Tok "Punctuator" "{" 47 48 1;
    Tok "Identifier" "bar" 49 52 1;
    Tok "Punctuator" "(" 52 53 1;
    Tok "Punctuator" ")" 53 54 1;
    Tok "Punctuator" ";" 54 55 1;
    Tok "Punctuator" "}" 56 57 1;
    Tok "Punctuator" "}" 58 59 1 ].

Definition deadTail_if1_then : node :=
  (BlockStatement (21, 41) [
    (OtherNode "ReturnStatement" (23, 32) [
      (OtherNode "Identifier" (30, 31) []) ]);
    (OtherNode "ExpressionStatement" (33, 39) [
      (OtherNode "CallExpression" (33, 38) [
        (OtherNode "Identifier" (33, 36) []) ]) ]) ]).

Definition deadTail_if1_else : node :=
  (BlockStatement (47, 57) [
    (OtherNode "ExpressionStatement" (49, 55) [
      (OtherNode "CallExpression" (49, 54) [
        (OtherNode "Identifier" (49, 52) []) ]) ]) ]).

Definition deadTail_if1 : node :=
  IfStatement (14, 57)
    (OtherNode "Identifier" (18, 19) [])
    deadTail_if1_then
    (Some deadTail_if1_else).

Definition deadTail_ast : node :=
  (OtherNode "Program" (0, 59) [
    (OtherNode "FunctionDeclaration" (0, 59) [
      (OtherNode "Identifier" (9, 10) []);
      (BlockStatement (12, 59) [
        deadTail_if1 ]) ]) ]).

Definition deadTail : SourceCode :=
  {| text := deadTail_text; tokens := deadTail_tokens |}.

(** An unbraced consequent that is itself an [if]/[else] whose own consequent ends in a third [if]/[else]. *)
Definition deepNest_text : string :=
  "function f(){ if (a) if (b) { if (c) return x; else return y; } else return z; else w(); }".

Definition deepNest_tokens : list Token :=
  [ Tok "Keyword" "function" 0 8 1;
    Tok "Identifier" "f" 9 10 1;
    Tok "Punctuator" "(" 10 11 1;
    Tok "Punctuator" ")" 11 12 1;
    Tok "Punctuator" "{" 12 13 1;
    Tok "Keyword" "if" 14 16 1;
    Tok "Punctuator" "(" 17 18 1;
    Tok "Identifier" "a" 18 19 1;
    Tok "Punctuator" ")" 19 20 1;
    Tok "Keyword" "if" 21 23 1;
    Tok "Punctuator" "(" 24 25 1;
    Tok "Identifier" "b" 25 26 1;
    Tok "Punctuator" ")" 26 27 1;
    Tok "Punctuator" "{" 28 29 1;
    Tok "Keyword" "if" 30 32 1;
    Tok "Punctuator" "(" 33 34 1;
    Tok "Identifier" "c" 34 35 1;
    Tok "Punctuator" ")" 35 36 1;
    Tok "Keyword" "return" 37 43 1;
    Tok "Identifier" "x" 44 45 1;
    Tok "Punctuator" ";" 45 46 1;
    Tok "Keyword" "else" 47 51 1;
    Tok "Keyword" "return" 52 58 1;
    Tok "Identifier" "y" 59 60 1;
    Tok "Punctuator" ";" 60 61 1;
    Tok "Punctuator" "}" 62 63 1;
    Tok "Keyword" "else" 64 68 1;
    Tok "Keyword" "return" 69 75 1;
    Tok "Identifier" "z" 76 77 1;
    Tok "Punctuator" ";" 77 78 1;
    Tok "Keyword" "else" 79 83 1;
    Tok "Identifier" "w" 84 85 1;
    Tok "Punctuator" "(" 85 86 1;
    Tok "Punctuator" ")" 86 87 1;
    Tok "Punctuator" ";" 87 88 1;
    Tok "Punctuator" "}" 89 90 1 ].

Definition deepNest_if3_then : node :=
  (OtherNode "ReturnStatement" (37, 46) [
    (OtherNode "Identifier" (44, 45) []) ]).

Definition deepNest_if3_else : node :=
  (OtherNode "ReturnStatement" (52, 61) [
    (OtherNode "Identifier" (59, 60) []) ]).

Definition deepNest_if3 : node :=
  IfStatement (30, 61)
    (OtherNode "Identifier" (34, 35) [])
    deepNest_if3_then
    (Some deepNest_if3_else).

Definition deepNest_if2_then : node :=
  (BlockStatement (28, 63) [
    deepNest_if3 ]).

Definition deepNest_if2_else : node :=
  (OtherNode "ReturnStatement" (69, 78) [
    (OtherNode "Identifier" (76, 77) []) ]).

Definition deepNest_if2 : node :=
  IfStatement (21, 78)
    (OtherNode "Identifier" (25, 26) [])
    deepNest_if2_then
    (Some deepNest_if2_else).

Definition deepNest_if1_else : node :=
  (OtherNode "ExpressionStatement" (84, 88) [
    (OtherNode "CallExpression" (84, 87) [
      (OtherNode "Identifier" (84, 85) []) ]) ]).

Definition deepNest_if1 : node :=
  IfStatement (14, 88)
    (OtherNode "Identifier" (18, 19) [])
    deepNest_if2
    (Some deepNest_if1_else).

Definition deepNest_ast : node :=
  (OtherNode "Program" (0, 90) [
    (OtherNode "FunctionDeclaration" (0, 90) [
      (OtherNode "Identifier" (9, 10) []);
      (BlockStatement (12, 90) [
        deepNest_if1 ]) ]) ]).

Definition deepNest : SourceCode :=
  {| text := deepNest_text; tokens := deepNest_tokens |}.

(** No semicolon before [else] and an else body starting with a bracket (as [foo11] in the tests). *)
Definition asiHead_text : string :=
  "function g(){ if (foo) return bar 
else { [1, 2, 3].map(foo) } }".

Definition asiHead_tokens : list Token :=
  [ Tok "Keyword" "function" 0 8 1;
    Tok "Identifier" "g" 9 10 1;
    Tok "Punctuator" "(" 10 11 1;
    Tok "Punctuator" ")" 11 12 1;
    Tok "Punctuator" "{" 12 13 1;
    Tok "Keyword" "if" 14 16 1;
    Tok "Punctuator" "(" 17 18 1;
    Tok "Identifier" "foo" 18 21 1;
    Tok "Punctuator" ")" 21 22 1;
    Tok "Keyword" "return" 23 29 1;
    Tok "Identifier" "bar" 30 33 1;
    Tok "Keyword" "else" 35 39 2;
    Tok "Punctuator" "{" 40 41 2;
    Tok "Punctuator" "[" 42 43 2;
    Tok "Numeric" "1" 43 44 2;
    Tok "Punctuator" "," 44 45 2;
    Tok "Numeric" "2" 46 47 2;
    Tok "Punctuator" "," 47 48 2;
    Tok "Numeric" "3" 49 50 2;
    Tok "Punctuator" "]" 50 51 2;
    Tok "Punctuator" "." 51 52 2;
    Tok "Identifier" "map" 52 55 2;
    Tok "Punctuator" "(" 55 56 2;
    Tok "Identifier" "foo" 56 59 2;
    Tok "Punctuator" ")" 59 60 2;
    Tok "Punctuator" "}" 61 62 2;
    Tok "Punctuator" "}" 63 64 2 ].

Definition asiHead_if1_then : node :=
  (OtherNode "ReturnStatement" (23, 33) [
    (OtherNode "Identifier" (30, 33) []) ]).

Definition asiHead_if1_else : node :=
  (BlockStatement (40, 62) [
    (OtherNode "ExpressionStatement" (42, 60) [
      (OtherNode "CallExpression" (42, 60) [
        (OtherNode "MemberExpression" (42, 55) [
          (OtherNode "ArrayExpression" (42, 51) [
            (OtherNode "Literal" (43, 44) []);
            (OtherNode "Literal" (46, 47) []);
            (OtherNode "Literal" (49, 50) []) ]);
          (OtherNode "Identifier" (52, 55) []) ]);
        (OtherNode "Identifier" (56, 59) []) ]) ]) ]).

Definition asiHead_if1 : node :=
  IfStatement (14, 62)
    (OtherNode "Identifier" (18, 21) [])
    asiHead_if1_then
    (Some asiHead_if1_else).

Definition asiHead_ast : node :=
  (OtherNode "Program" (0, 64) [
    (OtherNode "FunctionDeclaration" (0, 64) [
      (OtherNode "Identifier" (9, 10) []);
      (BlockStatement (12, 64) [
        asiHead_if1 ]) ]) ]).

Definition asiHead : SourceCode :=
  {| text := asiHead_text; tokens := asiHead_tokens |}.

(** An else body without a final semicolon, followed by a token on the same line (as [foo15] in the tests). *)
Definition asiTail_text : string :=
  "function h(){ if (foo) return bar; else { baz() } qaz() }".

Definition asiTail_tokens : list Token :=
  [ Tok "Keyword" "function" 0 8 1;
    Tok "Identifier" "h" 9 10 1;
    Tok "Punctuator" "(" 10 11 1;
    Tok "Punctuator" ")" 11 12 1;
    Tok "Punctuator" "{" 12 13 1;
    Tok "Keyword" "if" 14 16 1;
    Tok "Punctuator" "(" 17 18 1;
    Tok "Identifier" "foo" 18 21 1;
    Tok "Punctuator" ")" 21 22 1;
    Tok "Keyword" "return" 23 29 1;
    Tok "Identifier" "bar" 30 33 1;
    Tok "Punctuator" ";" 33 34 1;
    Tok "Keyword" "else" 35 39 1;
    Tok "Punctuator" "{" 40 41 1;
    Tok "Identifier" "baz" 42 45 1;
    Tok "Punctuator" "(" 45 46 1;
    Tok "Punctuator" ")" 46 47 1;
    Tok "Punctuator" "}" 48 49 1;
    Tok "Identifier" "qaz" 50 53 1;
    Tok "Punctuator" "(" 53 54 1;
    Tok "Punctuator" ")" 54 55 1;
    Tok "Punctuator" "}" 56 57 1 ].

Definition asiTail_if1_then : node :=
  (OtherNode "ReturnStatement" (23, 34) [
    (OtherNode "Identifier" (30, 33) []) ]).

Definition asiTail_if1_else : node :=
  (BlockStatement (40, 49) [
    (OtherNode "ExpressionStatement" (42, 47) [
      (OtherNode "CallExpression" (42, 47) [
        (OtherNode "Identifier" (42, 45) []) ]) ]) ]).

Definition asiTail_if1 : node :=
  IfStatement (14, 49)
    (OtherNode "Identifier" (18, 21) [])
    asiTail_if1_then
    (Some asiTail_if1_else).

Definition asiTail_ast : node :=
  (OtherNode "Program" (0, 57) [
    (OtherNode "FunctionDeclaration" (0, 57) [
      (OtherNode "Identifier" (9, 10) []);
      (BlockStatement (12, 57) [
        asiTail_if1;
        (OtherNode "ExpressionStatement" (50, 55) [
          (OtherNode "CallExpression" (50, 55) [
            (OtherNode "Identifier" (50, 53) []) ]) ]) ]) ]) ]).

Definition asiTail : SourceCode :=
  {| text := asiTail_text; tokens := asiTail_tokens |}.

(** A chain whose last link is a plain [if] (as [foop] in the tests). *)
Definition elseIfTail_text : string :=
  "function k(){ if (x) { return x; } else if (y) { return w; } }".

Definition elseIfTail_tokens : list Token :=
  [ Tok "Keyword" "function" 0 8 1;
    Tok "Identifier" "k" 9 10 1;
    Tok "Punctuator" "(" 10 11 1;
    Tok "Punctuator" ")" 11 12 1;
    Tok "Punctuator" "{" 12 13 1;
    Tok "Keyword" "if" 14 16 1;
    Tok "Punctuator" "(" 17 18 1;
    Tok "Identifier" "x" 18 19 1;
    Tok "Punctuator" ")" 19 20 1;
    Tok "Punctuator" "{" 21 22 1;
    Tok "Keyword" "return" 23 29 1;
    Tok "Identifier" "x" 30 31 1;
    Tok "Punctuator" ";" 31 32 1;
    Tok "Punctuator" "}" 33 34 1;
    Tok "Keyword" "else" 35 39 1;
    Tok "Keyword" "if" 40 42 1;
    Tok "Punctuator" "(" 43 44 1;
    Tok "Identifier" "y" 44 45 1;
    Tok "Punctuator" ")" 45 46 1;
    Tok "Punctuator" "{" 47 48 1;
    Tok "Keyword" "return" 49 55 1;
    Tok "Identifier" "w" 56 57 1;
    Tok "Punctuator" ";" 57 58 1;
    Tok "Punctuator" "}" 59 60 1;
    Tok "Punctuator" "}" 61 62 1 ].

Definition elseIfTail_if1_then : node :=
  (BlockStatement (21, 34) [
    (OtherNode "ReturnStatement" (23, 32) [
      (OtherNode "Identifier" (30, 31) []) ]) ]).

Definition elseIfTail_if2_then : node :=
  (BlockStatement (47, 60) [
    (OtherNode "ReturnStatement" (49, 58) [
      (OtherNode "Identifier" (56, 57) []) ]) ]).

Definition elseIfTail_if2 : node :=
  IfStatement (40, 60)
    (OtherNode "Identifier" (44, 45) [])
    elseIfTail_if2_then
    None.

Definition elseIfTail_if1 : node :=
  IfStatement (14, 60)
    (OtherNode "Identifier" (18, 19) [])
    elseIfTail_if1_then
    (Some elseIfTail_if2).

Definition elseIfTail_ast : node :=
  (OtherNode "Program" (0, 62) [
    (OtherNode "FunctionDeclaration" (0, 62) [
      (OtherNode "Identifier" (9, 10) []);
      (BlockStatement (12, 62) [
        elseIfTail_if1 ]) ]) ]).

Definition elseIfTail : SourceCode :=
  {| text := elseIfTail_text; tokens := elseIfTail_tokens |}.

(** Test [foo3] of the repository: unbraced branches. *)
Definition foo3_text : string :=
  "function foo3() { if (true) return x; else return y; }".

Definition foo3_tokens : list Token :=
  [ Tok "Keyword" "function" 0 8 1;
    Tok "Identifier" "foo3" 9 13 1;
    Tok "Punctuator" "(" 13 14 1;
    Tok "Punctuator" ")" 14 15 1;
    Tok "Punctuator" "{" 16 17 1;
    Tok "Keyword" "if" 18 20 1;
    Tok "Punctuator" "(" 21 22 1;
    Tok "Boolean" "true" 22 26 1;
    Tok "Punctuator" ")" 26 27 1;
    Tok "Keyword" "return" 28 34 1;
    Tok "Identifier" "x" 35 36 1;
    Tok "Punctuator" ";" 36 37 1;
    Tok "Keyword" "else" 38 42 1;
    Tok "Keyword" "return" 43 49 1;
    Tok "Identifier" "y" 50 51 1;
    Tok "Punctuator" ";" 51 52 1;
    Tok "Punctuator" "}" 53 54 1 ].

Definition foo3_if1_then : node :=
  (OtherNode "ReturnStatement" (28, 37) [
    (OtherNode "Identifier" (35, 36) []) ]).

Definition foo3_if1_else : node :=
  (OtherNode "ReturnStatement" (43, 52) [
    (OtherNode "Identifier" (50, 51) []) ]).

Definition foo3_if1 : node :=
  IfStatement (18, 52)
    (OtherNode "Literal" (22, 26) [])
    foo3_if1_then
    (Some foo3_if1_else).

Definition foo3_ast : node :=
  (OtherNode "Program" (0, 54) [
    (OtherNode "FunctionDeclaration" (0, 54) [
      (OtherNode "Identifier" (9, 13) []);
      (BlockStatement (16, 54) [
        foo3_if1 ]) ]) ]).

Definition foo3 : SourceCode :=
  {| text := foo3_text; tokens := foo3_tokens |}.

(** Test [foo13]: a semicolon before [else] makes the bracket harmless. *)
Definition foo13_text : string :=
  "function foo13() { if (foo) return bar; 
else { [1, 2, 3].map(foo) } }".

Definition foo13_tokens : list Token :=
  [ Tok "Keyword" "function" 0 8 1;
    Tok "Identifier" "foo13" 9 14 1;
    Tok "Punctuator" "(" 14 15 1;
    Tok "Punctuator" ")" 15 16 1;
    Tok "Punctuator" "{" 17 18 1;
    Tok "Keyword" "if" 19 21 1;
    Tok "Punctuator" "(" 22 23 1;
    Tok "Identifier" "foo" 23 26 1;
    Tok "Punctuator" ")" 26 27 1;
    Tok "Keyword" "return" 28 34 1;
    Tok "Identifier" "bar" 35 38 1;
    Tok "Punctuator" ";" 38 39 1;
    Tok "Keyword" "else" 41 45 2;
    Tok "Punctuator" "{" 46 47 2;
    Tok "Punctuator" "[" 48 49 2;
    Tok "Numeric" "1" 49 50 2;
    Tok "Punctuator" "," 50 51 2;
    Tok "Numeric" "2" 52 53 2;
    Tok "Punctuator" "," 53 54 2;
    Tok "Numeric" "3" 55 56 2;
    Tok "Punctuator" "]" 56 57 2;
    Tok "Punctuator" "." 57 58 2;
    Tok "Identifier" "map" 58 61 2;
    Tok "Punctuator" "(" 61 62 2;
    Tok "Identifier" "foo" 62 65 2;
    Tok "Punctuator" ")" 65 66 2;
    Tok "Punctuator" "}" 67 68 2;
    Tok "Punctuator" "}" 69 70 2 ].

Definition foo13_if1_then : node :=
  (OtherNode "ReturnStatement" (28, 39) [
    (OtherNode "Identifier" (35, 38) []) ]).

Definition foo13_if1_else : node :=
  (BlockStatement (46, 68) [
    (OtherNode "ExpressionStatement" (48, 66) [
      (OtherNode "CallExpression" (48, 66) [
        (OtherNode "MemberExpression" (48, 61) [
          (OtherNode "ArrayExpression" (48, 57) [
            (OtherNode "Literal" (49, 50) []);
            (OtherNode "Literal" (52, 53) []);
            (OtherNode "Literal" (55, 56) []) ]);
          (OtherNode "Identifier" (58, 61) []) ]);
        (OtherNode "Identifier" (62, 65) []) ]) ]) ]).

Definition foo13_if1 : node :=
  IfStatement (19, 68)
    (OtherNode "Identifier" (23, 26) [])
    foo13_if1_then
    (Some foo13_if1_else).

Definition foo13_ast : node :=
  (OtherNode "Program" (0, 70) [
    (OtherNode "FunctionDeclaration" (0, 70) [
      (OtherNode "Identifier" (9, 14) []);
      (BlockStatement (17, 70) [
        foo13_if1 ]) ]) ]).

Definition foo13 : SourceCode :=
  {| text := foo13_text; tokens := foo13_tokens |}.

(** Test [foo14]: the else body ends in a semicolon. *)
Definition foo14_text : string :=
  "function foo14() { if (foo) return bar 
else { baz(); } 
[1, 2, 3].map(foo) }".

Definition foo14_tokens : list Token :=
  [ Tok "Keyword" "function" 0 8 1;
    Tok "Identifier" "foo14" 9 14 1;
    Tok "Punctuator" "(" 14 15 1;
    Tok "Punctuator" ")" 15 16 1;
    Tok "Punctuator" "{" 17 18 1;
    Tok "Keyword" "if" 19 21 1;
    Tok "Punctuator" "(" 22 23 1;
    Tok "Identifier" "foo" 23 26 1;
    Tok "Punctuator" ")" 26 27 1;
    Tok "Keyword" "return" 28 34 1;
    Tok "Identifier" "bar" 35 38 1;
    Tok "Keyword" "else" 40 44 2;
    Tok "Punctuator" "{" 45 46 2;
    Tok "Identifier" "baz" 47 50 2;
    Tok "Punctuator" "(" 50 51 2;
    Tok "Punctuator" ")" 51 52 2;
    Tok "Punctuator" ";" 52 53 2;
    Tok "Punctuator" "}" 54 55 2;
    Tok "Punctuator" "[" 57 58 3;
    Tok "Numeric" "1" 58 59 3;
    Tok "Punctuator" "," 59 60 3;
    Tok "Numeric" "2" 61 62 3;
    Tok "Punctuator" "," 62 63 3;
    Tok "Numeric" "3" 64 65 3;
    Tok "Punctuator" "]" 65 66 3;
    Tok "Punctuator" "." 66 67 3;
    Tok "Identifier" "map" 67 70 3;
    Tok "Punctuator" "(" 70 71 3;
    Tok "Identifier" "foo" 71 74 3;
    Tok "Punctuator" ")" 74 75 3;
    Tok "Punctuator" "}" 76 77 3 ].

Definition foo14_if1_then : node :=
  (OtherNode "ReturnStatement" (28, 38) [
    (OtherNode "Identifier" (35, 38) []) ]).

Definition foo14_if1_else : node :=
  (BlockStatement (45, 55) [
    (OtherNode "ExpressionStatement" (47, 53) [
      (OtherNode "CallExpression" (47, 52) [
        (OtherNode "Identifier" (47, 50) []) ]) ]) ]).

Definition foo14_if1 : node :=
  IfStatement (19, 55)
    (OtherNode "Identifier" (23, 26) [])
    foo14_if1_then
    (Some foo14_if1_else).

Definition foo14_ast : node :=
  (OtherNode "Program" (0, 77) [
    (OtherNode "FunctionDeclaration" (0, 77) [
      (OtherNode "Identifier" (9, 14) []);
      (BlockStatement (17, 77) [
        foo14_if1;
        (OtherNode "ExpressionStatement" (57, 75) [
          (OtherNode "CallExpression" (57, 75) [
            (OtherNode "MemberExpression" (57, 70) [
              (OtherNode "ArrayExpression" (57, 66) [
                (OtherNode "Literal" (58, 59) []);
                (OtherNode "Literal" (61, 62) []);
                (OtherNode "Literal" (64, 65) []) ]);
              (OtherNode "Identifier" (67, 70) []) ]);
            (OtherNode "Identifier" (71, 74) []) ]) ]) ]) ]) ]).

Definition foo14 : SourceCode :=
  {| text := foo14_text; tokens := foo14_tokens |}.

(** Test [foo17]: the following token is on another line. *)
Definition foo17_text : string :=
  "function foo17() { if (foo) return bar 
else { baz() } 
qaz() }".

Definition foo17_tokens : list Token :=
  [ Tok "Keyword" "function" 0 8 1;
    Tok "Identifier" "foo17" 9 14 1;
    Tok "Punctuator" "(" 14 15 1;
    Tok "Punctuator" ")" 15 16 1;
    Tok "Punctuator" "{" 17 18 1;
    Tok "Keyword" "if" 19 21 1;
    Tok "Punctuator" "(" 22 23 1;
    Tok "Identifier" "foo" 23 26 1;
    Tok "Punctuator" ")" 26 27 1;
    Tok "Keyword" "return" 28 34 1;
    Tok "Identifier" "bar" 35 38 1;
    Tok "Keyword" "else" 40 44 2;
    Tok "Punctuator" "{" 45 46 2;
    Tok "Identifier" "baz" 47 50 2;
    Tok "Punctuator" "(" 50 51 2;
    Tok "Punctuator" ")" 51 52 2;
    Tok "Punctuator" "}" 53 54 2;
    Tok "Identifier" "qaz" 56 59 3;
    Tok "Punctuator" "(" 59 60 3;
    Tok "Punctuator" ")" 60 61 3;
    Tok "Punctuator" "}" 62 63 3 ].

Definition foo17_if1_then : node :=
  (OtherNode "ReturnStatement" (28, 38) [
    (OtherNode "Identifier" (35, 38) []) ]).

Definition foo17_if1_else : node :=
  (BlockStatement (45, 54) [
    (OtherNode "ExpressionStatement" (47, 52) [
      (OtherNode "CallExpression" (47, 52) [
        (OtherNode "Identifier" (47, 50) []) ]) ]) ]).

Definition foo17_if1 : node :=
  IfStatement (19, 54)
    (OtherNode "Identifier" (23, 26) [])
    foo17_if1_then
    (Some foo17_if1_else).

Definition foo17_ast : node :=
  (OtherNode "Program" (0, 63) [
    (OtherNode "FunctionDeclaration" (0, 63) [
      (OtherNode "Identifier" (9, 14) []);
      (BlockStatement (17, 63) [
        foo17_if1;
        (OtherNode "ExpressionStatement" (56, 61) [
          (OtherNode "CallExpression" (56, 61) [
            (OtherNode "Identifier" (56, 59) []) ]) ]) ]) ]) ]).

Definition foo17 : SourceCode :=
  {| text := foo17_text; tokens := foo17_tokens |}.

(** A valid case of the tests: empty blocks. *)
Definition emptyBlocks_text : string :=
  "if (0) { if (0) {} else {} } else {}".

Definition emptyBlocks_tokens : list Token :=
  [ Tok "Keyword" "if" 0 2 1;
    Tok "Punctuator" "(" 3 4 1;
    Tok "Numeric" "0" 4 5 1;
    Tok "Punctuator" ")" 5 6 1;
    Tok "Punctuator" "{" 7 8 1;
    Tok "Keyword" "if" 9 11 1;
    Tok "Punctuator" "(" 12 13 1;
    Tok "Numeric" "0" 13 14 1;
    Tok "Punctuator" ")" 14 15 1;
    Tok "Punctuator" "{" 16 17 1;
    Tok "Punctuator" "}" 17 18 1;
    Tok "Keyword" "else" 19 23 1;
    Tok "Punctuator" "{" 24 25 1;
    Tok "Punctuator" "}" 25 26 1;
    Tok "Punctuator" "}" 27 28 1;
    Tok "Keyword" "else" 29 33 1;
    Tok "Punctuator" "{" 34 35 1;
    Tok "Punctuator" "}" 35 36 1 ].

Definition emptyBlocks_if2_then : node :=
  (BlockStatement (16, 18) []).

Definition emptyBlocks_if2_else : node :=
  (BlockStatement (24, 26) []).

Definition emptyBlocks_if2 : node :=
  IfStatement (9, 26)
    (OtherNode "Literal" (13, 14) [])
    emptyBlocks_if2_then
    (Some emptyBlocks_if2_else).

Definition emptyBlocks_if1_then : node :=
  (BlockStatement (7, 28) [
    emptyBlocks_if2 ]).

Definition emptyBlocks_if1_else : node :=
  (BlockStatement (34, 36) []).

Definition emptyBlocks_if1 : node :=
  IfStatement (0, 36)
    (OtherNode "Literal" (4, 5) [])
    emptyBlocks_if1_then
    (Some emptyBlocks_if1_else).

Definition emptyBlocks_ast : node :=
  (OtherNode "Program" (0, 36) [
    emptyBlocks_if1 ]).

Definition emptyBlocks : SourceCode :=
  {| text := emptyBlocks_text; tokens := emptyBlocks_tokens |}.

(** ** Notions used to state the properties *)

Definition is_if (n : node) : bool := String.eqb (node_type n) "IfStatement".
Definition is_block (n : node) : bool := String.eqb (node_type n) "BlockStatement".

(** The outcome of a predicate of the rule as the caller's [if], [&&],
    [some] or [every] reads it. *)
Definition holds (r : result value) : Prop :=
  exists v, r = Ok v /\ truthy v = true.

(** The conditional chain of section 3 of the specification: the
    consequents met while following [alternate] through conditional nodes,
    and, when the chain has one, its final else together with the
    conditional it belongs to. *)
Fixpoint spec_chain (n : node) : list node * option (node * node) :=
  match n with
  | IfStatement _ _ c None => ([c], None)
  | IfStatement _ _ c (Some a) =>
      if is_if a then (c :: fst (spec_chain a), snd (spec_chain a))
      else ([c], Some (n, a))
  | _ => ([], None)
  end.

(** A node that is a jump, or a block ending in one. *)
Definition jump_last (n : node) : bool :=
  match n with
  | BlockStatement _ b =>
      match last b with
      | Some s => has CONTROL_FLOW_TYPES (node_type s)
      | None => false
      end
  | _ => has CONTROL_FLOW_TYPES (node_type n)
  end.

(** The classifier as section 4.1 of the specification words it:
    [spec_single_test] is the single-statement test, applied recursively to
    both branches of a conditional with a genuine else; [spec_terminates]
    looks at the last statement of a block. *)
Fixpoint spec_single_test (n : node) : bool :=
  let terminates (m : node) : bool :=
    match m with
    | BlockStatement _ b =>
        (fix last_passes (l : list node) : bool :=
           match l with
           | [] => false
           | [s] => spec_single_test s
           | _ :: l' => last_passes l'
           end) b
    | _ => spec_single_test m
    end in
  match n with
  | IfStatement _ _ c (Some a) => negb (is_if a) && terminates c && terminates a
  | IfStatement _ _ _ None => false
  | BlockStatement _ _ => false
  | OtherNode ty _ _ => has CONTROL_FLOW_TYPES ty
  end.

Definition spec_terminates (n : node) : bool :=
  match n with
  | BlockStatement _ b =>
      match last b with Some s => spec_single_test s | None => false end
  | _ => spec_single_test n
  end.

(** The six characters of the specification's hazard test, and a text
    beginning with one of them. *)
Definition begins_with_hazard (s : string) : Prop :=
  exists c rest, s = String c rest /\
    (c = "("%char \/ c = "["%char \/ c = "/"%char \/ c = "+"%char \/
     c = "`"%char \/ c = "-"%char).

(** Step (b)-(d) of section 4.3: the [if] side may lose its statement
    boundary and the else body begins with a hazardous character. *)
Definition head_hazard (consequent : node) (lastIfToken first : Token) : Prop :=
  node_type consequent <> "BlockStatement" /\
  tok_value lastIfToken <> ";" /\
  begins_with_hazard (tok_value first).

(** Step (e) of section 4.3: the tail-adjacency hazard. *)
Definition tail_hazard (lastTok : Token) (nextTok : option Token) : Prop :=
  tok_value lastTok <> ";" /\
  exists nt, nextTok = Some nt /\
    (begins_with_hazard (tok_value nt) \/
     (tok_line nt = tok_line lastTok /\ tok_value nt <> "}")).

(** The value [naiveHasControlJump] computes. *)
Definition naive_value (n : node) : value :=
  match n with
  | BlockStatement _ b =>
      match last b with
      | None => VUndefined
      | Some s => VBool (checkForControlJump s)
      end
  | _ => VBool (checkForControlJump n)
  end.

(** The statements of the consequent of [deadTail]. *)
Definition deadTail_body : list node :=
  [ OtherNode "ReturnStatement" (23, 32) [OtherNode "Identifier" (30, 31) []];
    OtherNode "ExpressionStatement" (33, 39)
      [OtherNode "CallExpression" (33, 38) [OtherNode "Identifier" (33, 36) []]] ].

(** The source after each diagnostic's fix, taken alone, is applied; the
    source itself where the fix is withheld. *)
Definition fixed_outputs (sc : SourceCode) (root : node) : result (list string) :=
  map (fun d => match diag_fix d with
                | Some f => applyFix (text sc) f
                | None => text sc
                end) <$> lint sc root.

(** The decisions of the [fix] callback as booleans. *)
Definition head_unsafe (consequent : node) (lastIfToken first : Token) : bool :=
  negb (String.eqb (node_type consequent) "BlockStatement") &&
  negb (String.eqb (tok_value lastIfToken) ";") &&
  test_hazard (tok_value first).

Definition tail_unsafe (lastTok : Token) (nextTok : option Token) : bool :=
  negb (String.eqb (tok_value lastTok) ";") &&
  match nextTok with
  | None => false
  | Some nt =>
      test_hazard (tok_value nt) ||
      (Nat.eqb (tok_line nt) (tok_line lastTok) &&
       negb (String.eqb (tok_value nt) "}"))
  end.

Section Walk.
Variable sourceCode : SourceCode.

(** The children of [parent] that hang under key [k], traversed in order. *)
Fixpoint traverseEach (parent : node) (k : key) (l : list node)
  : result (list Diagnostic) :=
  match l with
  | [] => Ok []
  | x :: xs =>
      r ← traverse sourceCode (Some (parent, k)) x;
      rs ← traverseEach parent k xs;
      Ok (r ++ rs)
  end.

(** What the traversal of the children of [n] reports, before the listener
    of [n] itself runs. *)
Definition traverseChildren (n : node) : result (list Diagnostic) :=
  match n with
  | IfStatement _ t c a =>
      rt ← traverse sourceCode (Some (n, KTest)) t;
      rc ← traverse sourceCode (Some (n, KConsequent)) c;
      ra ← match a with
           | Some a' => traverse sourceCode (Some (n, KAlternate)) a'
           | None => Ok []
           end;
      Ok (rt ++ rc ++ ra)
  | BlockStatement _ b => traverseEach n KBody b
  | OtherNode _ _ ch => traverseEach n KChild ch
  end.

(** What the parts hanging off a whole chain report: the test and the
    consequent of every link, and the final else, but no listener of any
    link. *)
Fixpoint chainBodies (n : node) : result (list Diagnostic) :=
  match n with
  | IfStatement _ t c a =>
      rt ← traverse sourceCode (Some (n, KTest)) t;
      rc ← traverse sourceCode (Some (n, KConsequent)) c;
      ra ← match a with
           | Some a' =>
               if is_if a' then chainBodies a'
               else traverse sourceCode (Some (n, KAlternate)) a'
           | None => Ok []
           end;
      Ok (rt ++ rc ++ ra)
  | BlockStatement _ b => traverseEach n KBody b
  | OtherNode _ _ ch => traverseEach n KChild ch
  end.

End Walk.

(** Every node of a tree with the parent and key it hangs under. *)
Fixpoint positions (ancestor : option (node * key)) (n : node) {struct n}
  : list (option (node * key) * node) :=
  let fix each (k : key) (l : list node) :=
    match l with
    | [] => []
    | x :: xs => positions (Some (n, k)) x ++ each k xs
    end in
  (ancestor, n) ::
  match n with
  | IfStatement _ t c a =>
      positions (Some (n, KTest)) t ++ positions (Some (n, KConsequent)) c ++
      match a with
      | Some a' => positions (Some (n, KAlternate)) a'
      | None => []
      end
  | BlockStatement _ b => each KBody b
  | OtherNode _ _ ch => each KChild ch
  end.

(** A chain head: a conditional that is not the [alternate] of another
    conditional. *)
Definition chain_head (ancestor : option (node * key)) (n : node) : bool :=
  is_if n &&
  negb (match ancestor with
        | Some (p, k) => is_if p && is_alternate k
        | None => false
        end).

(** An eligible chain: it has a final else and each of its consequents is
    classified as terminating. *)
Definition eligible_chain (n : node) : bool :=
  match spec_chain n with
  | (cs, Some _) =>
      match every alwaysHasControlFlow cs with
      | Ok b => b
      | TypeError => false
      end
  | (_, None) => false
  end.

Definition independent_eligible (pos : option (node * key) * node) : bool :=
  chain_head (fst pos) (snd pos) && eligible_chain (snd pos).

(** The number of independent eligible chains of a program. *)
Definition count_eligible (root : node) : nat :=
  length (List.filter independent_eligible (positions None root)).

(** Tokens exist around every else that is to be reported. *)
Definition anchored_at (sc : SourceCode) (pos : option (node * key) * node)
  : bool :=
  if independent_eligible pos then
    match snd (spec_chain (snd pos)) with
    | Some (p, e) => is_ok (displayReport sc p e)
    | None => true
    end
  else true.

Definition anchored (sc : SourceCode) (root : node) : bool :=
  forallb (anchored_at sc) (positions None root).

(** The positions below a node, by key. *)
Fixpoint positionsEach (parent : node) (k : key) (l : list node)
  : list (option (node * key) * node) :=
  match l with
  | [] => []
  | x :: xs => positions (Some (parent, k)) x ++ positionsEach parent k xs
  end.

Definition positionsChildren (n : node) : list (option (node * key) * node) :=
  match n with
  | IfStatement _ t c a =>
      positions (Some (n, KTest)) t ++ positions (Some (n, KConsequent)) c ++
      match a with
      | Some a' => positions (Some (n, KAlternate)) a'
      | None => []
      end
  | BlockStatement _ b => positionsEach n KBody b
  | OtherNode _ _ ch => positionsEach n KChild ch
  end.

Definition count_in (l : list (option (node * key) * node)) : nat :=
  length (List.filter independent_eligible l).

(** Every node of the tree begins where a token begins and ends where a
    token ends. *)
Definition ranges_agree (sc : SourceCode) (root : node) : bool :=
  forallb (fun pos =>
             existsb (fun t => Nat.eqb (tok_start t) (node_start (snd pos)))
                     (tokens sc) &&
             existsb (fun t => Nat.eqb (tok_end t) (node_end (snd pos)))
                     (tokens sc))
          (positions None root).

(** The third example of incorrect code in the rule's documentation, with a number for the string: the else body does not end in a jump. *)
Definition docsElse_text : string :=
  "function foo() { if (x) { return y; } else { var t = 5; } return t; }".

Definition docsElse_tokens : list Token :=
  [ Tok "Keyword" "function" 0 8 1;
    Tok "Identifier" "foo" 9 12 1;
    Tok "Punctuator" "(" 12 13 1;
    Tok "Punctuator" ")" 13 14 1;
    Tok "Punctuator" "{" 15 16 1;
    Tok "Keyword" "if" 17 19 1;
    Tok "Punctuator" "(" 20 21 1;
    Tok "Identifier" "x" 21 22 1;
    Tok "Punctuator" ")" 22 23 1;
    Tok "Punctuator" "{" 24 25 1;
    Tok "Keyword" "return" 26 32 1;
    Tok "Identifier" "y" 33 34 1;
    Tok "Punctuator" ";" 34 35 1;
    Tok "Punctuator" "}" 36 37 1;
    Tok "Keyword" "else" 38 42 1;
    Tok "Punctuator" "{" 43 44 1;
    Tok "Keyword" "var" 45 48 1;
    Tok "Identifier" "t" 49 50 1;
    Tok "Punctuator" "=" 51 52 1;
    Tok "Numeric" "5" 53 54 1;
    Tok "Punctuator" ";" 54 55 1;
    Tok "Punctuator" "}" 56 57 1;
    Tok "Keyword" "return" 58 64 1;
    Tok "Identifier" "t" 65 66 1;
    Tok "Punctuator" ";" 66 67 1;
    Tok "Punctuator" "}" 68 69 1 ].

Definition docsElse_if1_then : node :=
  (BlockStatement (24, 37) [
    (OtherNode "ReturnStatement" (26, 35) [
      (OtherNode "Identifier" (33, 34) []) ]) ]).

Definition docsElse_if1_else : node :=
  (BlockStatement (43, 57) [
    (OtherNode "VariableDeclaration" (45, 55) [
      (OtherNode "VariableDeclarator" (49, 54) [
        (OtherNode "Identifier" (49, 50) []);
        (OtherNode "Literal" (53, 54) []) ]) ]) ]).

Definition docsElse_if1 : node :=
  IfStatement (17, 57)
    (OtherNode "Identifier" (21, 22) [])
    docsElse_if1_then
    (Some docsElse_if1_else).

Definition docsElse_ast : node :=
  (OtherNode "Program" (0, 69) [
    (OtherNode "FunctionDeclaration" (0, 69) [
      (OtherNode "Identifier" (9, 12) []);
      (BlockStatement (15, 69) [
        docsElse_if1;
        (OtherNode "ReturnStatement" (58, 67) [
          (OtherNode "Identifier" (65, 66) []) ]) ]) ]) ]).

Definition docsElse : SourceCode :=
  {| text := docsElse_text; tokens := docsElse_tokens |}.

(** A valid case of the tests, with [while] for [for]: the [return] sits inside a loop. *)
Definition loopReturn_text : string :=
  "function foo() { if (true) { while (foo) { return x; } } else { return y; } }".

Definition loopReturn_tokens : list Token :=
  [ Tok "Keyword" "function" 0 8 1;
    Tok "Identifier" "foo" 9 12 1;
    Tok "Punctuator" "(" 12 13 1;
    Tok "Punctuator" ")" 13 14 1;
    Tok "Punctuator" "{" 15 16 1;
    Tok "Keyword" "if" 17 19 1;
    Tok "Punctuator" "(" 20 21 1;
    Tok "Boolean" "true" 21 25 1;
    Tok "Punctuator" ")" 25 26 1;
    Tok "Punctuator" "{" 27 28 1;
    Tok "Keyword" "while" 29 34 1;
    Tok "Punctuator" "(" 35 36 1;
    Tok "Identifier" "foo" 36 39 1;
    Tok "Punctuator" ")" 39 40 1;
    Tok "Punctuator" "{" 41 42 1;
    Tok "Keyword" "return" 43 49 1;
    Tok "Identifier" "x" 50 51 1;
    Tok "Punctuator" ";" 51 52 1;
    Tok "Punctuator" "}" 53 54 1;
    Tok "Punctuator" "}" 55 56 1;
    Tok "Keyword" "else" 57 61 1;
    Tok "Punctuator" "{" 62 63 1;
    Tok "Keyword" "return" 64 70 1;
    Tok "Identifier" "y" 71 72 1;
    Tok "Punctuator" ";" 72 73 1;
    Tok "Punctuator" "}" 74 75 1;
    Tok "Punctuator" "}" 76 77 1 ].

Definition loopReturn_if1_then : node :=
  (BlockStatement (27, 56) [
    (OtherNode "WhileStatement" (29, 54) [
      (OtherNode "Identifier" (36, 39) []);
      (BlockStatement (41, 54) [
        (OtherNode "ReturnStatement" (43, 52) [
          (OtherNode "Identifier" (50, 51) []) ]) ]) ]) ]).

Definition loopReturn_if1_else : node :=
  (BlockStatement (62, 75) [
    (OtherNode "ReturnStatement" (64, 73) [
      (OtherNode "Identifier" (71, 72) []) ]) ]).

Definition loopReturn_if1 : node :=
  IfStatement (17, 75)
    (OtherNode "Literal" (21, 25) [])
    loopReturn_if1_then
    (Some loopReturn_if1_else).

Definition loopReturn_ast : node :=
  (OtherNode "Program" (0, 77) [
    (OtherNode "FunctionDeclaration" (0, 77) [
      (OtherNode "Identifier" (9, 12) []);
      (BlockStatement (15, 77) [
        loopReturn_if1 ]) ]) ]).

Definition loopReturn : SourceCode :=
  {| text := loopReturn_text; tokens := loopReturn_tokens |}.

(** ** The code-path variant of the rule

    The listeners of [src/unnamed/part_001].  Its [displayReport] is the
    one above, character for character; what differs is how the else bodies
    to report are found: from the code-path events the linter sends. *)

(** A node object as the listeners see it: its identity, and [node.parent]
    as the parent and the key under which the node hangs in it. *)
Record NodeRef : Type := {
  ref_id : nat;
  ref_parent : option (node * key)
}.

(** The events the listeners are registered for, before [Program:exit].
    Code paths and segments are opaque to the rule. *)
Inductive event : Type :=
| CodePathStart (codePath : nat)
| CodePathEnd
| CodePathSegmentStart (segment : nat) (n : NodeRef)
| CodePathSegmentEnd (segment : nat) (n : NodeRef).

(** [consequentsWithSegments] is a [Set] of node objects, kept in insertion
    order; [codePathStack] an array used as a stack. *)
Record ListenerState : Type := {
  consequentsWithSegments : list NodeRef;
  codePathStack : list nat
}.

Definition initialState : ListenerState :=
  {| consequentsWithSegments := []; codePathStack := [] |}.

(** [Set.prototype.has], [add] and [delete], by object identity. *)
Definition set_has (x : NodeRef) (s : list NodeRef) : bool :=
  existsb (fun y => Nat.eqb (ref_id y) (ref_id x)) s.

Definition set_add (x : NodeRef) (s : list NodeRef) : list NodeRef :=
  if set_has x s then s else s ++ [x].

Definition set_delete (x : NodeRef) (s : list NodeRef) : list NodeRef :=
  List.filter (fun y => negb (Nat.eqb (ref_id y) (ref_id x))) s.

Definition is_consequent (k : key) : bool :=
  match k with KConsequent => true | _ => false end.

(** The condition of both segment listeners:
    [node.parent && node.parent.type === "IfStatement" &&
     node === node.parent.consequent && node.parent.alternate]. *)
Definition consequentWithElse (n : NodeRef) : bool :=
  match ref_parent n with
  | None => false
  | Some (parent, k) =>
      String.eqb (node_type parent) "IfStatement" &&
      match node_consequent parent with
      | Obj _ => is_consequent k
      | _ => false
      end &&
      match node_alternate parent with
      | Obj _ => true
      | _ => false
      end
  end.

(** [onCodePathStart(codePath)]: [codePathStack.unshift(codePath)] *)
Definition onCodePathStart (st : ListenerState) (codePath : nat) : ListenerState :=
  {| consequentsWithSegments := consequentsWithSegments st;
     codePathStack := codePath :: codePathStack st |}.

(** [onCodePathEnd()]: [codePathStack.shift()] *)
Definition onCodePathEnd (st : ListenerState) : ListenerState :=
  {| consequentsWithSegments := consequentsWithSegments st;
     codePathStack := tail (codePathStack st) |}.

(** [onCodePathSegmentStart(segment, node)] *)
Definition onCodePathSegmentStart (st : ListenerState) (segment : nat)
    (n : NodeRef) : ListenerState :=
  if consequentWithElse n then
    {| consequentsWithSegments := set_add n (consequentsWithSegments st);
       codePathStack := codePathStack st |}
  else st.

(** [onCodePathSegmentEnd(segment, node)] *)
Definition onCodePathSegmentEnd (st : ListenerState) (segment : nat)
    (n : NodeRef) : ListenerState :=
  if consequentWithElse n then
    {| consequentsWithSegments := set_delete n (consequentsWithSegments st);
       codePathStack := codePathStack st |}
  else st.

(** The linter calling the listener of each event in turn. *)
Definition dispatch (st : ListenerState) (e : event) : ListenerState :=
  match e with
  | CodePathStart codePath => onCodePathStart st codePath
  | CodePathEnd => onCodePathEnd st
  | CodePathSegmentStart segment n => onCodePathSegmentStart st segment n
  | CodePathSegmentEnd segment n => onCodePathSegmentEnd st segment n
  end.

Definition dispatchAll (es : list event) (st : ListenerState) : ListenerState :=
  fold_left dispatch es st.

(** ["Program:exit"()]: [displayReport(node.parent.alternate)] for each
    node of the set, in insertion order. *)
Fixpoint Program_exit (sc : SourceCode) (s : list NodeRef)
  : result (list Diagnostic) :=
  match s with
  | [] => Ok []
  | n :: rest =>
      pk ← deref (ref_parent n);
      a ← field_deref (node_alternate (fst pk));
      d ← displayReport sc (fst pk) a;
      ds ← Program_exit sc rest;
      Ok (d :: ds)
  end.

(** The identities held in the set. *)
Definition held (st : ListenerState) : list nat :=
  map ref_id (consequentsWithSegments st).

Definition is_code_path_event (e : event) : bool :=
  match e with
  | CodePathStart _ | CodePathEnd => true
  | _ => false
  end.

(** Among the events [es], a segment started at the consequent with
    identity [i] of a conditional with an else, and no segment ended at it
    afterwards. *)
Definition segment_open (es : list event) (i : nat) : Prop :=
  exists es1 seg n es2,
    es = es1 ++ CodePathSegmentStart seg n :: es2 /\
    ref_id n = i /\ consequentWithElse n = true /\
    forall seg' m, CodePathSegmentEnd seg' m ∈ es2 -> ref_id m = i ->
                   consequentWithElse m = false.

(** The consequent and the else body of scenario 1 as node objects. *)
Definition scenario1_then_ref : NodeRef :=
  {| ref_id := 21; ref_parent := Some (scenario1_if1, KConsequent) |}.

Definition scenario1_else_ref : NodeRef :=
  {| ref_id := 40; ref_parent := Some (scenario1_if1, KAlternate) |}.

(** ** Further notions *)

(** What the traversal reports at one position of the tree. *)
Definition reports_at (sc : SourceCode) (pos : option (node * key) * node)
  : list Diagnostic :=
  if independent_eligible pos then
    match snd (spec_chain (snd pos)) with
    | Some (q, e) =>
        match displayReport sc q e with
        | Ok d => [d]
        | TypeError => []
        end
    | None => []
    end
  else [].

(** The chain of [n] with [e] put in the place of its final else. *)
Fixpoint replace_final_else (n : node) (e : node) : node :=
  match n with
  | IfStatement r t c (Some a) =>
      if is_if a then IfStatement r t c (Some (replace_final_else a e))
      else IfStatement r t c (Some e)
  | _ => n
  end.

(** [u] occurs in [s] as a run of consecutive characters. *)
Definition factor (u s : string) : Prop :=
  exists pre post, s = pre +:+ u +:+ post.

(** What [checkForControlJumpOrIf] and [every] answer, as their callers
    read it. *)
Definition passes (r : result value) : bool :=
  match r with Ok v => truthy v | TypeError => false end.

(** A braced consequent and an unbraced else body that ends in a semicolon, followed by a statement on the same line. *)
Definition tailSemi_text : string :=
  "function f(){ if (a) { return x; } else b(); c(); }".

Definition tailSemi_tokens : list Token :=
  [ Tok "Keyword" "function" 0 8 1;
    Tok "Identifier" "f" 9 10 1;
    Tok "Punctuator" "(" 10 11 1;
    Tok "Punctuator" ")" 11 12 1;
    Tok "Punctuator" "{" 12 13 1;
    Tok "Keyword" "if" 14 16 1;
    Tok "Punctuator" "(" 17 18 1;
    Tok "Identifier" "a" 18 19 1;
    Tok "Punctuator" ")" 19 20 1;
    Tok "Punctuator" "{" 21 22 1;
    Tok "Keyword" "return" 23 29 1;
    Tok "Identifier" "x" 30 31 1;
    Tok "Punctuator" ";" 31 32 1;
    Tok "Punctuator" "}" 33 34 1;
    Tok "Keyword" "else" 35 39 1;
    Tok "Identifier" "b" 40 41 1;
    Tok "Punctuator" "(" 41 42 1;
    Tok "Punctuator" ")" 42 43 1;
    Tok "Punctuator" ";" 43 44 1;
    Tok "Identifier" "c" 45 46 1;
    Tok "Punctuator" "(" 46 47 1;
    Tok "Punctuator" ")" 47 48 1;
    Tok "Punctuator" ";" 48 49 1;
    Tok "Punctuator" "}" 50 51 1 ].

Definition tailSemi_if1_then : node :=
  (BlockStatement (21, 34) [
    (OtherNode "ReturnStatement" (23, 32) [
      (OtherNode "Identifier" (30, 31) []) ]) ]).

Definition tailSemi_if1_else : node :=
  (OtherNode "ExpressionStatement" (40, 44) [
    (OtherNode "CallExpression" (40, 43) [
      (OtherNode "Identifier" (40, 41) []) ]) ]).

Definition tailSemi_if1 : node :=
  IfStatement (14, 44)
    (OtherNode "Identifier" (18, 19) [])
    tailSemi_if1_then
    (Some tailSemi_if1_else).

Definition tailSemi_ast : node :=
  (OtherNode "Program" (0, 51) [
    (OtherNode "FunctionDeclaration" (0, 51) [
      (OtherNode "Identifier" (9, 10) []);
      (BlockStatement (12, 51) [
        tailSemi_if1;
        (OtherNode "ExpressionStatement" (45, 49) [
          (OtherNode "CallExpression" (45, 48) [
            (OtherNode "Identifier" (45, 46) []) ]) ]) ]) ]) ]).

Definition tailSemi : SourceCode :=
  {| text := tailSemi_text; tokens := tailSemi_tokens |}.

(** ** The claims in the words of the specification

    Notions that do not go through the rule's own tests: whether an else
    body is braced is decided by the kind of the node, and the tokens the
    hazards speak of are found from there. *)

(** A token that is the opening brace of a block. *)
Definition opens_with_brace (t : Token) : Prop :=
  tok_type t = "Punctuator" /\ tok_value t = "{".

(** The tokens belong to the parse of the node: a block, and only a block,
    begins with an opening brace. *)
Definition parsed_body (sc : SourceCode) (n : node) : Prop :=
  forall st, getFirstToken sc n = Some st ->
             (is_block n = true <-> opens_with_brace st).

(** The [else] keyword: the token before the first token of the body. *)
Definition spec_else_keyword (sc : SourceCode) (n : node) : option Token :=
  st ← getFirstToken sc n; getTokenBefore sc st.

(** The first substantive token of the else body: the token after the
    opening brace of a block, the first token of a single statement. *)
Definition spec_first_token (sc : SourceCode) (n : node) : option Token :=
  if is_block n then st ← getFirstToken sc n; getTokenAfter sc st
  else getFirstToken sc n.

(** The last token of the contents of the else body: the token before the
    closing brace of a block, the last token of a single statement. *)
Definition spec_last_token (sc : SourceCode) (n : node) : option Token :=
  if is_block n then en ← getLastToken sc n; getTokenBefore sc en
  else getLastToken sc n.

(** The token following the else body. *)
Definition spec_next_token (sc : SourceCode) (n : node) : option Token :=
  en ← getLastToken sc n; getTokenAfter sc en.

(** The fix is to be withheld, as sections 4.3 (b)-(e) say it. *)
Definition spec_withheld (sc : SourceCode) (parent n : node) : Prop :=
  (exists c el li fe,
     node_consequent parent = Obj c /\
     spec_else_keyword sc n = Some el /\
     getTokenBefore sc el = Some li /\
     spec_first_token sc n = Some fe /\
     head_hazard c li fe) \/
  (exists le,
     spec_last_token sc n = Some le /\
     tail_hazard le (spec_next_token sc n)).

(** Eligibility as sections 4.1 and 4.2 of the specification define it: a
    final else, and every consequent passing the recursive, last-statement
    test. *)
Definition spec_eligible_chain (n : node) : bool :=
  match spec_chain n with
  | (cs, Some _) => forallb spec_terminates cs
  | (_, None) => false
  end.

Definition spec_count_eligible (root : node) : nat :=
  length (List.filter (fun pos => chain_head (fst pos) (snd pos) &&
                                  spec_eligible_chain (snd pos))
                      (positions None root)).

(** The classification the code makes, written from the shape of the
    nodes: a statement passes when it is a jump, or a conditional with an
    else that is not a conditional, both branches being a jump or a block
    ending in one; a block passes when one of its statements does. *)
Definition classified_statement (s : node) : bool :=
  has CONTROL_FLOW_TYPES (node_type s) ||
  match s with
  | IfStatement _ _ c (Some a) => negb (is_if a) && jump_last a && jump_last c
  | _ => false
  end.

Definition classified_terminating (n : node) : bool :=
  match n with
  | BlockStatement _ b => existsb classified_statement b
  | _ => classified_statement n
  end.

Definition classified_eligible_chain (n : node) : bool :=
  match spec_chain n with
  | (cs, Some _) => forallb classified_terminating cs
  | (_, None) => false
  end.

(** The number of chain heads with a final else all of whose consequents
    are classified as terminating. *)
Definition classified_count (root : node) : nat :=
  length (List.filter (fun pos => chain_head (fst pos) (snd pos) &&
                                  classified_eligible_chain (snd pos))
                      (positions None root)).

(** The tokens [displayReport] looks up exist around the final else of
    every chain of the program. *)
Definition reportable (sc : SourceCode) (root : node) : bool :=
  forallb (fun pos => match snd (spec_chain (snd pos)) with
                      | Some (p, e) => is_ok (displayReport sc p e)
                      | None => true
                      end)
          (positions None root).

(** ** Basic facts *)

(** The concrete programs are consistent: the tokens are the text they
    claim to be, the trees are well formed, and the nodes sit on token
    boundaries. *)
Lemma programs_consistent :
  forallb tokens_agree
    [scenario1; scenario2; scenario4; scenario5; deadTail; deepNest;
     asiHead; asiTail; elseIfTail; foo3; foo13; foo14; foo17; emptyBlocks]
    = true /\
  forallb well_formed
    [scenario1_ast; scenario2_ast; scenario4_ast; scenario5_ast; deadTail_ast;
     deepNest_ast; asiHead_ast; asiTail_ast; elseIfTail_ast; foo3_ast;
     foo13_ast; foo14_ast; foo17_ast; emptyBlocks_ast] = true /\
  forallb (fun p => ranges_agree (fst p) (snd p))
    [(scenario1, scenario1_ast); (scenario2, scenario2_ast);
     (scenario4, scenario4_ast); (scenario5, scenario5_ast);
     (deadTail, deadTail_ast); (deepNest, deepNest_ast);
     (asiHead, asiHead_ast); (asiTail, asiTail_ast);
     (elseIfTail, elseIfTail_ast); (foo3, foo3_ast); (foo13, foo13_ast);
     (foo14, foo14_ast); (foo17, foo17_ast); (emptyBlocks, emptyBlocks_ast)]
    = true.
Proof. repeat split; vm_compute; reflexivity. Qed.

Lemma has_control_flow (x : string) :
  has CONTROL_FLOW_TYPES x = true <->
  x = "ReturnStatement" \/ x = "ThrowStatement" \/
  x = "BreakStatement" \/ x = "ContinueStatement".
Proof.
  unfold has, CONTROL_FLOW_TYPES. rewrite bool_decide_eq_true.
  rewrite !elem_of_union, !elem_of_singleton. tauto.
Qed.

Lemma bind_ok_nil {A : Type} (m : result (list A)) :
  (x ← m; own ← Ok []; Ok (x ++ own)) = m.
Proof. destruct m as [x|]; simpl; [by rewrite app_nil_r | done]. Qed.

Lemma is_if_inv (n : node) :
  is_if n = true ->
  (exists r t c a, n = IfStatement r t c a) \/
  (exists r ch, n = OtherNode "IfStatement" r ch).
Proof.
  destruct n as [r t c a|r b|ty r ch]; unfold is_if; simpl; intros H.
  - left. eauto.
  - discriminate.
  - right. apply String.eqb_eq in H. subst. eauto.
Qed.

Lemma well_formed_other ty r ch :
  well_formed (OtherNode ty r ch) = true ->
  String.eqb ty "IfStatement" = false /\
  String.eqb ty "BlockStatement" = false /\
  forallb well_formed ch = true.
Proof.
  simpl. rewrite !andb_true_iff, !negb_true_iff. tauto.
Qed.

Lemma well_formed_if r t c a :
  well_formed (IfStatement r t c a) = true ->
  well_formed t = true /\ well_formed c = true /\
  match a with Some a' => well_formed a' = true | None => True end.
Proof.
  simpl. rewrite !andb_true_iff. destruct a; tauto.
Qed.

(** A well-formed node is an [IfStatement] or a [BlockStatement] exactly
    when its [type] says so. *)
Lemma well_formed_is_if (n : node) :
  well_formed n = true -> is_if n = true ->
  exists r t c a, n = IfStatement r t c a.
Proof.
  intros W H. destruct (is_if_inv n H) as [?|(r & ch & ->)]; [done|].
  apply well_formed_other in W as [W _]. discriminate.
Qed.

Lemma well_formed_is_block (n : node) :
  well_formed n = true -> is_block n = true ->
  exists r b, n = BlockStatement r b.
Proof.
  destruct n as [r t c a|r b|ty r ch]; unfold is_block; simpl; intros W H.
  - discriminate.
  - by exists r, b.
  - apply (well_formed_other ty r ch) in W as (_ & W & _). congruence.
Qed.

(** The fixes computed for the programs of the repository's tests are the
    outputs the tests expect. *)
Lemma fixes_match_repository_tests :
  fixed_outputs foo3 foo3_ast =
    Ok ["function foo3() { if (true) return x; return y; }"] /\
  fixed_outputs foo13 foo13_ast =
    Ok ["function foo13() { if (foo) return bar; 
 [1, 2, 3].map(foo)  }"] /\
  fixed_outputs foo14 foo14_ast =
    Ok ["function foo14() { if (foo) return bar 
 baz();  
[1, 2, 3].map(foo) }"] /\
  fixed_outputs foo17 foo17_ast =
    Ok ["function foo17() { if (foo) return bar 
 baz()  
qaz() }"] /\
  fixed_outputs asiHead asiHead_ast = Ok [asiHead_text] /\
  fixed_outputs asiTail asiTail_ast = Ok [asiTail_text] /\
  lint emptyBlocks emptyBlocks_ast = Ok [].
Proof. repeat split; vm_compute; reflexivity. Qed.

(** ** The classifier on well-formed nodes *)

Lemma naive_well_formed (n : node) :
  well_formed n = true -> naiveHasControlJump n = Ok (naive_value n).
Proof.
  destruct n as [r t c a|r b|ty r ch]; intros W; unfold naiveHasControlJump; simpl.
  - reflexivity.
  - destruct (last b); reflexivity.
  - apply well_formed_other in W as (_ & -> & _). reflexivity.
Qed.

Lemma naive_value_truthy (n : node) : truthy (naive_value n) = jump_last n.
Proof.
  destruct n as [r t c a|r b|ty r ch]; simpl; try reflexivity.
  destruct (last b); reflexivity.
Qed.

Lemma checkForIf_not_if (n : node) :
  is_if n = false -> checkForIf n = Ok (VBool false).
Proof. unfold checkForIf, is_if. intros ->. reflexivity. Qed.

Lemma checkForIf_no_else r t c :
  checkForIf (IfStatement r t c None) = Ok VNull.
Proof. reflexivity. Qed.

Lemma checkForIf_else_if r t c a :
  is_if a = true -> checkForIf (IfStatement r t c (Some a)) = Ok (VBool false).
Proof.
  unfold checkForIf, hasElse, is_if. simpl. intros ->. reflexivity.
Qed.

Lemma checkForIf_else r t c a :
  is_if a = false -> well_formed a = true -> well_formed c = true ->
  checkForIf (IfStatement r t c (Some a)) =
  Ok (if jump_last a then naive_value c else naive_value a).
Proof.
  intros Ha Wa Wc. unfold checkForIf, hasElse. unfold is_if in Ha.
  simpl. rewrite Ha. simpl.
  rewrite (naive_well_formed a Wa). simpl.
  rewrite naive_value_truthy.
  destruct (jump_last a); simpl; [apply naive_well_formed, Wc | reflexivity].
Qed.

Lemma checkForIf_total (n : node) :
  well_formed n = true -> exists v, checkForIf n = Ok v.
Proof.
  intros W. destruct (is_if n) eqn:E.
  - destruct (well_formed_is_if n W E) as (r & t & c & a & ->).
    apply well_formed_if in W as (_ & Wc & Wa).
    destruct a as [a|]; [|eauto using checkForIf_no_else].
    destruct (is_if a) eqn:Ea; [eauto using checkForIf_else_if|].
    rewrite checkForIf_else by done. eauto.
  - rewrite checkForIf_not_if by done. eauto.
Qed.

Lemma checkForControlJumpOrIf_total (n : node) :
  well_formed n = true -> exists v, checkForControlJumpOrIf n = Ok v.
Proof.
  intros W. unfold checkForControlJumpOrIf.
  destruct (checkForControlJump n); [eauto | by apply checkForIf_total].
Qed.

Lemma some_total {A : Type} (f : A -> result value) (l : list A) :
  Forall (fun x => exists v, f x = Ok v) l ->
  some f l = Ok (existsb (fun x => match f x with Ok v => truthy v | TypeError => false end) l).
Proof.
  induction 1 as [|x l [v Hv] _ IH]; simpl; [done|].
  rewrite Hv. simpl. destruct (truthy v); [done | apply IH].
Qed.

Lemma every_total {A : Type} (f : A -> result value) (l : list A) :
  Forall (fun x => exists v, f x = Ok v) l ->
  every f l = Ok (forallb (fun x => match f x with Ok v => truthy v | TypeError => false end) l).
Proof.
  induction 1 as [|x l [v Hv] _ IH]; simpl; [done|].
  rewrite Hv. simpl. destruct (truthy v); [apply IH | done].
Qed.

Lemma forallb_Forall_well_formed (l : list node) :
  forallb well_formed l = true -> Forall (fun x => well_formed x = true) l.
Proof. intros H. apply Forall_forall. intros x Hx. rewrite forallb_forall in H. apply H. by apply list_elem_of_In. Qed.

Lemma alwaysHasControlFlow_block r b :
  forallb well_formed b = true ->
  alwaysHasControlFlow (BlockStatement r b) =
  Ok (VBool (existsb (fun s => match checkForControlJumpOrIf s with
                               | Ok v => truthy v
                               | TypeError => false
                               end) b)).
Proof.
  intros W. unfold alwaysHasControlFlow. simpl.
  rewrite some_total; [done|].
  eapply Forall_impl; [apply forallb_Forall_well_formed, W|].
  intros x Hx. by apply checkForControlJumpOrIf_total.
Qed.

Lemma alwaysHasControlFlow_total (n : node) :
  well_formed n = true -> exists v, alwaysHasControlFlow n = Ok v.
Proof.
  intros W. destruct (is_block n) eqn:E.
  - destruct (well_formed_is_block n W E) as (r & b & ->).
    rewrite alwaysHasControlFlow_block; [eauto | exact W].
  - unfold alwaysHasControlFlow. unfold is_block in E. rewrite E.
    by apply checkForControlJumpOrIf_total.
Qed.

(** ** The chain walk and the traversal *)

(** The loop of the listener computes the chain of the specification. *)
Lemma chainWalk_spec_chain (n : node) :
  forall acc alt, is_if n = true ->
  chainWalk n acc alt =
  match snd (spec_chain n) with
  | Some pe => Some (acc ++ fst (spec_chain n), Some pe)
  | None => None
  end.
Proof.
  induction n as [r t c a _ _ IHa|r b _|ty r ch _] using node_ind';
    intros acc alt H.
  - destruct a as [a|]; simpl; [|done].
    destruct (is_if a) eqn:Ea; simpl.
    + rewrite (IHa _ _ eq_refl). destruct (snd (spec_chain a)); [|done].
      by rewrite <- app_assoc.
    + destruct a as [? ? ? ?|? ?|ty ? ?]; simpl; try done.
      unfold is_if in Ea. simpl in Ea. by rewrite Ea.
  - discriminate.
  - unfold is_if in H. simpl in H. simpl. by rewrite H.
Qed.

Section WalkFacts.
Variable sc : SourceCode.

Lemma traverse_unfold (ancestor : option (node * key)) (n : node) :
  traverse sc ancestor n =
  (inner ← traverseChildren sc n;
   own ← (if is_if n then IfStatement_exit sc ancestor n else Ok []);
   Ok (inner ++ own)).
Proof.
  assert (E : forall k l,
    (fix traverseList (k : key) (l : list node) : result (list Diagnostic) :=
       match l with
       | [] => Ok []
       | x :: xs =>
           r ← traverse sc (Some (n, k)) x;
           rs ← traverseList k xs;
           Ok (r ++ rs)
       end) k l = traverseEach sc n k l).
  { intros k l. induction l as [|x xs IH]; simpl; [done|]. by rewrite IH. }
  destruct n as [r t c a|r b|ty r ch]; simpl; unfold is_if; simpl;
    try reflexivity; by rewrite E.
Qed.

(** The guard of the listener: a conditional hanging under the
    [alternate] key of a conditional is left without analysis. *)
Lemma exit_inner_link (p n : node) :
  is_if p = true -> IfStatement_exit sc (Some (p, KAlternate)) n = Ok [].
Proof.
  intros Hp. unfold IfStatement_exit. simpl.
  unfold is_if in Hp. by rewrite Hp.
Qed.

Lemma traverse_inner_link (n : node) :
  forall p, is_if p = true -> is_if n = true ->
  traverse sc (Some (p, KAlternate)) n = chainBodies sc n.
Proof.
  induction n as [r t c a _ _ IHa|r b _|ty r ch _] using node_ind';
    intros p Hp Hn; rewrite traverse_unfold, Hn, (exit_inner_link _ _ Hp).
  - rewrite bind_ok_nil. simpl.
    destruct a as [a|]; [|done].
    destruct (is_if a) eqn:Ea; [|done].
    by rewrite (IHa (IfStatement r t c (Some a)) eq_refl eq_refl).
  - discriminate.
  - by rewrite bind_ok_nil.
Qed.

Lemma traverseChildren_chainBodies (n : node) :
  traverseChildren sc n = chainBodies sc n.
Proof.
  destruct n as [r t c a|r b|ty r ch]; simpl; try done.
  destruct a as [a|]; [|done].
  destruct (is_if a) eqn:Ea; [|done].
  by rewrite (traverse_inner_link a (IfStatement r t c (Some a)) eq_refl Ea).
Qed.

(** What the listener does at a node that passes the guard. *)
Lemma exit_head (p : node) (k : key) (n : node) :
  is_if p && is_alternate k = false -> is_if n = true ->
  IfStatement_exit sc (Some (p, k)) n =
  match snd (spec_chain n) with
  | None => Ok []
  | Some (q, e) =>
      eligible ← every alwaysHasControlFlow (fst (spec_chain n));
      if (eligible : bool) then d ← displayReport sc q e; Ok [d] else Ok []
  end.
Proof.
  intros G Hn. unfold IfStatement_exit. simpl.
  unfold is_if in G. rewrite G.
  rewrite (chainWalk_spec_chain n [] None Hn).
  destruct (snd (spec_chain n)) as [[q e]|]; [|done].
  simpl. destruct (every alwaysHasControlFlow (fst (spec_chain n))) as [[|]|]; done.
Qed.

Lemma exit_at_most_one (ancestor : option (node * key)) (n : node) ds :
  IfStatement_exit sc ancestor n = Ok ds -> length ds <= 1.
Proof.
  unfold IfStatement_exit. destruct ancestor as [[p k]|]; simpl; [|done].
  destruct (_ && _); [intros [= <-]; simpl; lia|].
  destruct (chainWalk n [] None) as [[cs alt]|]; [|intros [= <-]; simpl; lia].
  destruct (every alwaysHasControlFlow cs) as [[|]|]; simpl;
    [|intros [= <-]; simpl; lia|done].
  destruct alt as [[q e]|]; simpl; [|done].
  destruct (displayReport sc q e); simpl; [intros [= <-]; simpl; lia|done].
Qed.

End WalkFacts.

(** ** Properties of the chain analyser *)

(** Claim C6 (chain anchoring).  At a conditional [n] reached by the
    traversal: if [n] hangs under the [alternate] key of a conditional it is
    an inner link, the listener returns at once without a diagnostic and the
    traversal of [n] is that of the parts hanging off the rest of the chain;
    in general, everything reported while traversing a chain is what its
    bodies report followed by the outcome of the one listener call at its
    head, which is at most one diagnostic. *)
Theorem chain_anchoring (sc : SourceCode) (ancestor : option (node * key))
    (n : node) :
  is_if n = true ->
  (forall p, is_if p = true -> ancestor = Some (p, KAlternate) ->
     IfStatement_exit sc ancestor n = Ok [] /\
     traverse sc ancestor n = chainBodies sc n) /\
  traverse sc ancestor n =
    (bodies ← chainBodies sc n;
     own ← IfStatement_exit sc ancestor n;
     Ok (bodies ++ own)) /\
  (forall ds, IfStatement_exit sc ancestor n = Ok ds -> length ds <= 1).
Proof.
  intros Hn. split; [|split].
  - intros p Hp ->. split.
    + by apply exit_inner_link.
    + by apply traverse_inner_link.
  - by rewrite traverse_unfold, Hn, traverseChildren_chainBodies.
  - intros ds. apply exit_at_most_one.
Qed.

Lemma chain_anchoring_witness :
  is_if scenario2_if2 = true /\
  is_if scenario2_if1 = true /\
  IfStatement_exit scenario2 (Some (scenario2_if1, KAlternate)) scenario2_if2 = Ok [] /\
  traverse scenario2 (Some (scenario2_if1, KAlternate)) scenario2_if2 =
    chainBodies scenario2 scenario2_if2.
Proof.
  split; [reflexivity|]. split; [reflexivity|].
  exact (proj1 (chain_anchoring scenario2 (Some (scenario2_if1, KAlternate))
                  scenario2_if2 eq_refl) scenario2_if1 eq_refl eq_refl).
Defined.

(** Claim C7 (chains without a final else).  The loop of the listener
    collects the consequents of the chain of [n] in order and ends at its
    final else; when the chain has none, the listener returns without a
    diagnostic, whatever the source and wherever [n] hangs, so that the
    traversal of [n] reports only what the bodies of the chain report. *)
Theorem unterminated_chain_silent (sc : SourceCode) (p : node) (k : key)
    (n : node) :
  is_if n = true ->
  chainWalk n [] None =
    match snd (spec_chain n) with
    | Some final => Some (fst (spec_chain n), Some final)
    | None => None
    end /\
  (snd (spec_chain n) = None ->
     IfStatement_exit sc (Some (p, k)) n = Ok [] /\
     traverse sc (Some (p, k)) n = chainBodies sc n).
Proof.
  intros Hn. split.
  - by rewrite (chainWalk_spec_chain n [] None Hn).
  - intros E.
    assert (X : IfStatement_exit sc (Some (p, k)) n = Ok []).
    { destruct (is_if p && is_alternate k) eqn:G.
      - unfold IfStatement_exit. simpl. unfold is_if in G. by rewrite G.
      - by rewrite (exit_head sc p k n G Hn), E. }
    split; [exact X|].
    rewrite traverse_unfold, Hn, X, traverseChildren_chainBodies.
    apply bind_ok_nil.
Qed.

Lemma unterminated_chain_silent_witness :
  is_if elseIfTail_if1 = true /\
  snd (spec_chain elseIfTail_if1) = None /\
  IfStatement_exit elseIfTail
    (Some (BlockStatement (12, 62) [elseIfTail_if1], KBody)) elseIfTail_if1 = Ok [].
Proof.
  split; [reflexivity|]. split; [reflexivity|].
  exact (proj1 (proj2 (unterminated_chain_silent elseIfTail
                  (BlockStatement (12, 62) [elseIfTail_if1]) KBody
                  elseIfTail_if1 eq_refl) eq_refl)).
Defined.

(** ** Properties of the classifier *)

Lemma holds_jump (n : node) :
  checkForControlJump n = true -> holds (checkForControlJumpOrIf n).
Proof.
  intros H. exists (VBool true). unfold checkForControlJumpOrIf. by rewrite H.
Qed.

Lemma holds_result (r : result value) :
  match r with Ok v => truthy v | TypeError => false end = true <-> holds r.
Proof.
  unfold holds. destruct r as [v|]; split.
  - intros H. by exists v.
  - by intros (? & [= <-] & ?).
  - done.
  - by intros (? & ? & _).
Qed.

Lemma spec_chain_well_formed (n : node) :
  well_formed n = true ->
  Forall (fun c => well_formed c = true) (fst (spec_chain n)).
Proof.
  induction n as [r t c a _ _ IHa|r b _|ty r ch _] using node_ind';
    intros W; simpl; try by constructor.
  apply well_formed_if in W as (_ & Wc & Wa).
  destruct a as [a|]; simpl.
  - destruct (is_if a); simpl; repeat constructor; auto.
  - by repeat constructor.
Qed.

Lemma every_holds {A : Type} (f : A -> result value) (l : list A) :
  Forall (fun x => holds (f x)) l -> every f l = Ok true.
Proof.
  induction 1 as [|x l (v & Hv & Tv) _ IH]; simpl; [done|].
  by rewrite Hv; simpl; rewrite Tv.
Qed.

(** Claim C2, as the code has it.  A block is classified as terminating
    exactly when some statement of its body, the last or an earlier one,
    passes the single-statement test; so a block whose jump statement is
    followed by further statements is classified as terminating, and a chain
    with a final else all of whose consequents are classified as
    terminating, such blocks among them, is reported. *)
Theorem block_terminates_by_any_statement (r : nat * nat) (body : list node) :
  forallb well_formed body = true ->
  (exists b, alwaysHasControlFlow (BlockStatement r body) = Ok (VBool b) /\
     (b = true <-> exists s, s ∈ body /\ holds (checkForControlJumpOrIf s))) /\
  (forall pre j post, body = pre ++ j :: post ->
     checkForControlJump j = true ->
     alwaysHasControlFlow (BlockStatement r body) = Ok (VBool true)) /\
  (forall sc p k n q e,
     is_if p && is_alternate k = false -> is_if n = true ->
     BlockStatement r body ∈ fst (spec_chain n) ->
     snd (spec_chain n) = Some (q, e) ->
     Forall (fun c => holds (alwaysHasControlFlow c)) (fst (spec_chain n)) ->
     IfStatement_exit sc (Some (p, k)) n = (d ← displayReport sc q e; Ok [d])).
Proof.
  intros W.
  assert (E := alwaysHasControlFlow_block r body W).
  assert (X : forall s, s ∈ body -> holds (checkForControlJumpOrIf s) ->
              alwaysHasControlFlow (BlockStatement r body) = Ok (VBool true)).
  { intros s Hs Hh. rewrite E. do 2 f_equal. apply existsb_exists.
    exists s. split; [by apply list_elem_of_In | by apply holds_result]. }
  split; [|split].
  - eexists. split; [exact E|]. split.
    + intros H. apply existsb_exists in H as (s & Hs & Hh).
      exists s. split; [by apply list_elem_of_In | by apply holds_result].
    + intros (s & Hs & Hh). specialize (X s Hs Hh). congruence.
  - intros pre j post -> Hj. apply (X j); [set_solver | by apply holds_jump].
  - intros sc p k n q e G Hn _ Hf A.
    rewrite (exit_head sc p k n G Hn), Hf. by rewrite (every_holds _ _ A).
Qed.

Lemma block_terminates_by_any_statement_witness :
  forallb well_formed deadTail_body = true /\
  alwaysHasControlFlow (BlockStatement (21, 41) deadTail_body) = Ok (VBool true) /\
  IfStatement_exit deadTail (Some (BlockStatement (12, 59) [deadTail_if1], KBody))
    deadTail_if1 =
  (d ← displayReport deadTail deadTail_if1 deadTail_if1_else; Ok [d]).
Proof.
  split; [reflexivity|].
  pose (T := block_terminates_by_any_statement (21, 41) deadTail_body eq_refl).
  split.
  - exact (proj1 (proj2 T) [] _ _ eq_refl eq_refl).
  - refine (proj2 (proj2 T) deadTail
              (BlockStatement (12, 59) [deadTail_if1]) KBody deadTail_if1
              deadTail_if1 deadTail_if1_else eq_refl eq_refl _ eq_refl _).
    + apply list_elem_of_here.
    + repeat constructor. exists (VBool true). split; reflexivity.
Defined.

(** The input that separates claim C2 from the code: the consequent
    [{ return y; foo(); }] is classified as terminating although its last
    statement fails the single-statement test, and the chain is reported. *)
Lemma dead_tail_reported :
  deadTail_if1_then = BlockStatement (21, 41) deadTail_body /\
  (exists s, last deadTail_body = Some s /\
             checkForControlJumpOrIf s = Ok (VBool false)) /\
  spec_terminates deadTail_if1_then = false /\
  alwaysHasControlFlow deadTail_if1_then = Ok (VBool true) /\
  length <$> lint deadTail deadTail_ast = Ok 1.
Proof.
  split; [reflexivity|]. split; [eexists; split; reflexivity|].
  repeat split; vm_compute; reflexivity.
Qed.

(** Claim C5, as the code has it.  A conditional statement passes the
    single-statement test exactly when it has an alternate that is not a
    conditional and both that alternate and its consequent are a jump
    statement or a block whose last statement is one; nothing is looked up
    inside a conditional nested in those branches.  A conditional without
    alternate, or whose alternate is a conditional, never passes.  A branch
    that is this conditional, or a block holding just it, is classified
    accordingly. *)
Theorem nested_conditional_needs_jumps (r : nat * nat) (t c : node)
    (alt : option node) :
  well_formed c = true ->
  (forall a, alt = Some a -> well_formed a = true) ->
  exists v,
    checkForIf (IfStatement r t c alt) = Ok v /\
    (truthy v = true <->
       exists a, alt = Some a /\ is_if a = false /\
                 jump_last a = true /\ jump_last c = true) /\
    alwaysHasControlFlow (IfStatement r t c alt) = Ok v /\
    (forall r', alwaysHasControlFlow (BlockStatement r' [IfStatement r t c alt])
                = Ok (VBool (truthy v))) /\
    (alt = None -> v = VNull) /\
    (forall a, alt = Some a -> is_if a = true -> v = VBool false).
Proof.
  intros Wc Wa.
  assert (B : forall v r', checkForIf (IfStatement r t c alt) = Ok v ->
    alwaysHasControlFlow (BlockStatement r' [IfStatement r t c alt])
    = Ok (VBool (truthy v))).
  { intros v r' E. unfold alwaysHasControlFlow, checkForControlJumpOrIf. simpl.
    change (checkForControlJump (IfStatement r t c alt)) with false. simpl.
    rewrite E. simpl. by destruct (truthy v). }
  destruct alt as [a|].
  - specialize (Wa a eq_refl). destruct (is_if a) eqn:Ea.
    + exists (VBool false). pose proof (checkForIf_else_if r t c a Ea) as E.
      split; [exact E|]. split; [|split; [|split; [|split]]].
      * split; [done|]. intros (a' & [= <-] & ? & _). congruence.
      * exact E.
      * intros r'. by apply B.
      * done.
      * done.
    + pose proof (checkForIf_else r t c a Ea Wa Wc) as E.
      eexists. split; [exact E|]. split; [|split; [|split; [|split]]].
      * split.
        -- intros H. exists a. destruct (jump_last a) eqn:Ja.
           ++ by rewrite naive_value_truthy in H.
           ++ rewrite naive_value_truthy in H. congruence.
        -- intros (a' & [= <-] & _ & Ja & Jc). rewrite Ja.
           by rewrite naive_value_truthy.
      * exact E.
      * intros r'. by apply B.
      * done.
      * intros a' [= <-]. congruence.
  - exists VNull. split; [reflexivity|]. split; [|split; [|split; [|split]]].
    + split; [done|]. by intros (a & ? & _).
    + reflexivity.
    + intros r'. by apply B.
    + done.
    + done.
Qed.

Lemma nested_conditional_needs_jumps_witness :
  well_formed deepNest_if2_then = true /\
  exists v, checkForIf deepNest_if2 = Ok v /\
    (truthy v = true <->
       exists a, Some deepNest_if2_else = Some a /\ is_if a = false /\
                 jump_last a = true /\ jump_last deepNest_if2_then = true).
Proof.
  split; [reflexivity|].
  destruct (nested_conditional_needs_jumps (21, 78)
              (OtherNode "Identifier" (25, 26) []) deepNest_if2_then
              (Some deepNest_if2_else) eq_refl
              (fun a E => match E in _ = o
                                return match o with
                                       | Some x => well_formed x = true
                                       | None => True
                                       end
                          with eq_refl => eq_refl end))
    as (v & E & I & _).
  exists v. split; [exact E | exact I].
Defined.

(** The input that separates claim C5 from the code: the conditional
    [if (b) { if (c) return x; else return y; } else return z;] has a
    genuine else and both its branches pass the recursive test of the
    specification, yet the code does not classify it as terminating, and the
    chain it is the only branch of is not eligible. *)
Lemma deep_nest_not_terminating :
  node_alternate deepNest_if2 = Obj deepNest_if2_else /\
  is_if deepNest_if2_else = false /\
  spec_terminates deepNest_if2_then = true /\
  spec_terminates deepNest_if2_else = true /\
  spec_single_test deepNest_if2 = true /\
  alwaysHasControlFlow deepNest_if2 = Ok (VBool false) /\
  eligible_chain deepNest_if1 = false.
Proof. repeat split; vm_compute; reflexivity. Qed.

(** ** Totality *)

Lemma every_chain_total (n : node) :
  well_formed n = true ->
  exists b, every alwaysHasControlFlow (fst (spec_chain n)) = Ok b.
Proof.
  intros W. rewrite every_total; [eauto|].
  eapply Forall_impl; [apply spec_chain_well_formed, W|].
  intros c Wc. by apply alwaysHasControlFlow_total.
Qed.




(** ** Counting diagnostics *)

Lemma positions_unfold (ancestor : option (node * key)) (n : node) :
  positions ancestor n = (ancestor, n) :: positionsChildren n.
Proof.
  assert (E : forall k l,
    (fix each (k : key) (l : list node) : list (option (node * key) * node) :=
       match l with
       | [] => []
       | x :: xs => positions (Some (n, k)) x ++ each k xs
       end) k l = positionsEach n k l).
  { intros k l. induction l as [|x xs IH]; simpl; [done|]. by rewrite IH. }
  destruct n as [r t c a|r b|ty r ch]; simpl; try reflexivity; by rewrite E.
Qed.

Lemma count_in_app l1 l2 : count_in (l1 ++ l2) = count_in l1 + count_in l2.
Proof. unfold count_in. by rewrite List.filter_app, length_app. Qed.

Lemma count_in_cons pos l :
  count_in (pos :: l) = (if independent_eligible pos then 1 else 0) + count_in l.
Proof. unfold count_in. simpl. by destruct (independent_eligible pos). Qed.

Lemma bind_ok_inv {A B : Type} (m : result A) (f : A -> result B) (b : B) :
  m ≫= f = Ok b -> exists a, m = Ok a /\ f a = Ok b.
Proof. destruct m as [a|]; [eauto | done]. Qed.

Lemma has_parent {A : Type} (P : Prop) (x : A) : P -> Some x <> None.
Proof. done. Qed.

Section Counting.
Variable sc : SourceCode.

Lemma exit_count (ancestor : option (node * key)) (n : node) ds :
  is_if n = true -> IfStatement_exit sc ancestor n = Ok ds ->
  length ds = if independent_eligible (ancestor, n) then 1 else 0.
Proof.
  intros Hn. destruct ancestor as [[p k]|]; [|done].
  unfold independent_eligible, chain_head. simpl. rewrite Hn. simpl.
  destruct (is_if p && is_alternate k) eqn:G.
  - unfold IfStatement_exit. simpl. unfold is_if in G. rewrite G.
    by intros [= <-].
  - rewrite (exit_head sc p k n G Hn). unfold eligible_chain. simpl.
    destruct (spec_chain n) as [cs [[q e]|]]; simpl; [|by intros [= <-]].
    destruct (every alwaysHasControlFlow cs) as [[|]|]; simpl;
      [|by intros [= <-]|done].
    destruct (displayReport sc q e); simpl; [by intros [= <-]|done].
Qed.

Lemma traverseEach_count (p : node) (k : key) (l : list node) :
  Forall (fun x => forall anc ds, traverse sc anc x = Ok ds ->
                   length ds = count_in (positions anc x)) l ->
  forall ds, traverseEach sc p k l = Ok ds ->
  length ds = count_in (positionsEach p k l).
Proof.
  induction 1 as [|x xs Hx _ IH]; simpl; intros ds E.
  - by injection E as <-.
  - apply bind_ok_inv in E as (d1 & E1 & E).
    apply bind_ok_inv in E as (d2 & E2 & E). injection E as <-.
    rewrite length_app, count_in_app, (Hx _ _ E1), (IH _ E2). done.
Qed.

Lemma traverse_count (n : node) :
  forall anc ds, traverse sc anc n = Ok ds ->
  length ds = count_in (positions anc n).
Proof.
  induction n as [r t c a IHt IHc IHa|r b IHb|ty r ch IHch] using node_ind';
    intros anc ds; rewrite traverse_unfold, positions_unfold, count_in_cons;
    intros E; apply bind_ok_inv in E as (inner & Ei & E);
    apply bind_ok_inv in E as (own & Eo & E); injection E as <-;
    rewrite length_app, Nat.add_comm; f_equal.
  - by apply exit_count.
  - simpl in Ei. simpl.
    apply bind_ok_inv in Ei as (dt & Et & Ei).
    apply bind_ok_inv in Ei as (dc & Ec & Ei).
    apply bind_ok_inv in Ei as (da & Ea & Ei). injection Ei as <-.
    rewrite !length_app, !count_in_app, (IHt _ _ Et), (IHc _ _ Ec).
    do 2 f_equal. destruct a as [a|]; [by apply IHa|by injection Ea as <-].
  - by injection Eo as <-.
  - by apply (traverseEach_count _ _ _ IHb).
  - destruct (is_if (OtherNode ty r ch)) eqn:Hn.
    + by apply exit_count.
    + injection Eo as <-. unfold independent_eligible, chain_head. simpl.
      by rewrite Hn.
  - by apply (traverseEach_count _ _ _ IHch).
Qed.

Lemma exit_total (p : node) (k : key) (n : node) :
  well_formed n = true -> is_if n = true ->
  anchored_at sc (Some (p, k), n) = true ->
  exists ds, IfStatement_exit sc (Some (p, k)) n = Ok ds.
Proof.
  intros W Hn A. destruct (is_if p && is_alternate k) eqn:G.
  - unfold IfStatement_exit. simpl. unfold is_if in G. rewrite G. eauto.
  - rewrite (exit_head sc p k n G Hn).
    unfold anchored_at, independent_eligible, chain_head, eligible_chain in A.
    simpl in A. rewrite Hn, G in A. simpl in A.
    destruct (every_chain_total n W) as [b Eb].
    destruct (spec_chain n) as [cs [[q e]|]]; simpl in *; [|eauto].
    rewrite Eb in *. simpl. destruct b; [|eauto].
    destruct (displayReport sc q e); [eauto|done].
Qed.

Lemma traverseEach_total (p : node) (k : key) (l : list node) :
  Forall (fun x => forall anc, well_formed x = true ->
                   (is_if x = true -> anc <> None) ->
                   forallb (anchored_at sc) (positions anc x) = true ->
                   exists ds, traverse sc anc x = Ok ds) l ->
  forallb well_formed l = true ->
  forallb (anchored_at sc) (positionsEach p k l) = true ->
  exists ds, traverseEach sc p k l = Ok ds.
Proof.
  induction 1 as [|x xs Hx _ IH]; simpl; intros W A; [eauto|].
  apply andb_true_iff in W as [Wx Wxs].
  rewrite forallb_app in A. apply andb_true_iff in A as [Ax Axs].
  destruct (Hx (Some (p, k)) Wx (has_parent _ _) Ax) as [d1 ->].
  destruct (IH Wxs Axs) as [d2 ->]. simpl. eauto.
Qed.

Lemma traverse_total (n : node) :
  forall anc, well_formed n = true ->
  (is_if n = true -> anc <> None) ->
  forallb (anchored_at sc) (positions anc n) = true ->
  exists ds, traverse sc anc n = Ok ds.
Proof.
  induction n as [r t c a IHt IHc IHa|r b IHb|ty r ch IHch] using node_ind';
    intros anc W Hanc; rewrite traverse_unfold, positions_unfold;
    intros A; cbn [forallb] in A; apply andb_true_iff in A as [A0 A];
    simpl in A; simpl.
  - apply well_formed_if in W as (Wt & Wc & Wa).
    rewrite !forallb_app in A.
    apply andb_true_iff in A as [At A]. apply andb_true_iff in A as [Ac Aa].
    destruct (IHt _ Wt (has_parent _ _) At) as [dt ->].
    destruct (IHc _ Wc (has_parent _ _) Ac) as [dc ->]. simpl.
    assert (exists da, match a with
                       | Some a' => traverse sc
                           (Some (IfStatement r t c a, KAlternate)) a'
                       | None => Ok []
                       end = Ok da) as [da Ea].
    { destruct a as [a|]; [|eauto]. apply IHa; [done|apply has_parent|done]. }
    rewrite Ea. simpl.
    destruct anc as [[p k]|]; [|by destruct Hanc].
    destruct (exit_total p k (IfStatement r t c a)) as [ds ->]; simpl; eauto.
    simpl. rewrite Wt, Wc. simpl. by destruct a.
  - destruct (traverseEach_total (BlockStatement r b) KBody b IHb W A)
      as [ds ->]. simpl. eauto.
  - pose proof W as W'. apply well_formed_other in W' as (W1 & _ & Wch).
    destruct (traverseEach_total (OtherNode ty r ch) KChild ch IHch Wch A)
      as [ds ->]. simpl.
    unfold is_if. simpl. rewrite W1. simpl. eauto.
Qed.

End Counting.

(** ** The classification by the shape of the nodes *)

Lemma classified_statement_passes (s : node) :
  well_formed s = true ->
  passes (checkForControlJumpOrIf s) = classified_statement s.
Proof.
  intros W.
  unfold checkForControlJumpOrIf, checkForControlJump, classified_statement.
  destruct (has CONTROL_FLOW_TYPES (node_type s)); [done|]. simpl.
  destruct s as [r t c [a|]|r b|ty r ch].
  - apply well_formed_if in W as (_ & Wc & Wa).
    destruct (is_if a) eqn:Ea.
    + by rewrite checkForIf_else_if.
    + rewrite checkForIf_else by done. simpl.
      destruct (jump_last a) eqn:Ja; simpl; rewrite naive_value_truthy; done.
  - done.
  - done.
  - rewrite checkForIf_not_if; [done|]. unfold is_if. simpl.
    by apply well_formed_other in W as (-> & _).
Qed.

Lemma classified_terminating_passes (n : node) :
  well_formed n = true ->
  passes (alwaysHasControlFlow n) = classified_terminating n.
Proof.
  intros W. destruct n as [r t c a|r b|ty r ch].
  - by apply classified_statement_passes.
  - rewrite alwaysHasControlFlow_block by exact W. simpl. simpl in W.
    induction b as [|s b IH]; simpl; [done|].
    simpl in W. apply andb_true_iff in W as [Ws Wb].
    rewrite <- (classified_statement_passes s Ws), (IH Wb). done.
  - change (classified_terminating (OtherNode ty r ch))
      with (classified_statement (OtherNode ty r ch)).
    rewrite <- (classified_statement_passes _ W).
    unfold alwaysHasControlFlow. simpl.
    by apply well_formed_other in W as (_ & -> & _).
Qed.

Lemma eligible_chain_classified (n : node) :
  well_formed n = true -> eligible_chain n = classified_eligible_chain n.
Proof.
  intros W. unfold eligible_chain, classified_eligible_chain.
  pose proof (spec_chain_well_formed n W) as F.
  destruct (spec_chain n) as [cs [pe|]]; [|done]. simpl in F.
  rewrite every_total.
  - induction F as [|c cs Wc _ IH]; simpl; [done|].
    change (match alwaysHasControlFlow c with
            | Ok v => truthy v
            | TypeError => false
            end) with (passes (alwaysHasControlFlow c)).
    by rewrite (classified_terminating_passes c Wc), IH.
  - eapply Forall_impl; [exact F|].
    intros c Wc. by apply alwaysHasControlFlow_total.
Qed.

Lemma positionsEach_well_formed (p : node) (k : key) (l : list node) :
  Forall (fun x => forall anc, well_formed x = true ->
            Forall (fun pos => well_formed (snd pos) = true)
                   (positions anc x)) l ->
  forallb well_formed l = true ->
  Forall (fun pos => well_formed (snd pos) = true) (positionsEach p k l).
Proof.
  induction 1 as [|x xs Hx _ IH]; simpl; intros W; [constructor|].
  apply andb_true_iff in W as [Wx Wxs].
  apply Forall_app. split; [by apply Hx | by apply IH].
Qed.

Lemma positions_well_formed (n : node) :
  forall anc, well_formed n = true ->
  Forall (fun pos => well_formed (snd pos) = true) (positions anc n).
Proof.
  induction n as [r t c a IHt IHc IHa|r b IHb|ty r ch IHch] using node_ind';
    intros anc W; rewrite positions_unfold; constructor; try exact W; simpl.
  - apply well_formed_if in W as (Wt & Wc & Wa).
    apply Forall_app. split; [by apply IHt|].
    apply Forall_app. split; [by apply IHc|].
    destruct a as [a|]; [by apply IHa | constructor].
  - by apply positionsEach_well_formed.
  - apply well_formed_other in W as (_ & _ & W).
    by apply positionsEach_well_formed.
Qed.

Lemma count_eligible_classified (root : node) :
  well_formed root = true -> count_eligible root = classified_count root.
Proof.
  intros W. unfold count_eligible, classified_count. f_equal.
  pose proof (positions_well_formed root None W) as F.
  induction F as [|pos l Wp _ IH]; simpl; [done|].
  unfold independent_eligible at 1.
  rewrite (eligible_chain_classified (snd pos) Wp), IH. done.
Qed.

Lemma reportable_anchored (sc : SourceCode) (root : node) :
  reportable sc root = true -> anchored sc root = true.
Proof.
  unfold reportable, anchored. rewrite !forallb_forall.
  intros H pos Hin. specialize (H pos Hin). unfold anchored_at.
  by destruct (independent_eligible pos).
Qed.

(** The count of claim C8 fails with the eligibility of sections 4.1 and
    4.2: [deadTail], whose consequent has a statement after its [return],
    has no eligible chain and gets one diagnostic; [deepNest], with a
    conditional nested in a branch of a nested conditional, has three
    eligible chains and gets two diagnostics. *)
Lemma eligible_chains_miscounted :
  (well_formed deadTail_ast = true /\
   length <$> lint deadTail deadTail_ast = Ok 1 /\
   spec_count_eligible deadTail_ast = 0) /\
  (well_formed deepNest_ast = true /\
   length <$> lint deepNest deepNest_ast = Ok 2 /\
   spec_count_eligible deepNest_ast = 3) /\
  ~ (forall sc root ds, well_formed root = true -> lint sc root = Ok ds ->
       length ds = spec_count_eligible root).
Proof.
  split; [|split].
  - repeat split; vm_compute; reflexivity.
  - repeat split; vm_compute; reflexivity.
  - intros H.
    destruct (lint deadTail deadTail_ast) as [ds|] eqn:E;
      [|vm_compute in E; discriminate].
    pose proof (H deadTail deadTail_ast ds eq_refl E) as L.
    vm_compute in E. injection E as <-. vm_compute in L. discriminate.
Qed.

(** Claim C8 (nested reporting), as the code has it.  For a well-formed
    program, when the traversal returns, it returns as many diagnostics as
    the program has chains that start at a conditional which is not the
    alternate of a conditional, have a final else, and have every
    consequent classified as terminating the way the code classifies: a
    statement that is a jump or a conditional with an else that is not a
    conditional, both branches being a jump or a block ending in one; a
    block one of whose statements is such a statement.  The traversal does
    return when, besides, the root is not a conditional and the tokens
    around every final else exist.  The nested program of scenario 5 has
    two such chains and yields two diagnostics, first the one at the
    [else] of the inner chain, then the one at the [else] of the outer
    chain. *)
Theorem one_diagnostic_per_eligible_chain :
  (forall sc root ds,
     well_formed root = true -> lint sc root = Ok ds ->
     length ds = classified_count root) /\
  (forall sc root,
     well_formed root = true -> is_if root = false ->
     reportable sc root = true ->
     exists ds, lint sc root = Ok ds /\ length ds = classified_count root) /\
  classified_count scenario5_ast = 2 /\
  spec_count_eligible scenario5_ast = 2 /\
  map diag_node <$> lint scenario5 scenario5_ast =
    Ok [Tok "Keyword" "else" 44 48 1; Tok "Keyword" "else" 65 69 1] /\
  spec_else_keyword scenario5 scenario5_if2_else =
    Some (Tok "Keyword" "else" 44 48 1) /\
  spec_else_keyword scenario5 scenario5_if1_else =
    Some (Tok "Keyword" "else" 65 69 1) /\
  snd (spec_chain scenario5_if2) = Some (scenario5_if2, scenario5_if2_else) /\
  snd (spec_chain scenario5_if1) = Some (scenario5_if1, scenario5_if1_else).
Proof.
  split; [|split].
  - intros sc root ds W E. rewrite <- count_eligible_classified by exact W.
    by apply (traverse_count sc root None ds).
  - intros sc root W R A.
    destruct (traverse_total sc root None W) as [ds E].
    + intros H. congruence.
    + by apply reportable_anchored.
    + exists ds. split; [exact E|].
      rewrite <- count_eligible_classified by exact W.
      by apply (traverse_count sc root None ds).
  - repeat split; vm_compute; reflexivity.
Qed.

Lemma one_diagnostic_per_eligible_chain_witness :
  (well_formed scenario5_ast = true /\ is_if scenario5_ast = false /\
   reportable scenario5 scenario5_ast = true /\
   exists ds, lint scenario5 scenario5_ast = Ok ds /\
              length ds = classified_count scenario5_ast) /\
  (well_formed deadTail_ast = true /\
   lint deadTail deadTail_ast =
     Ok [ {| diag_node := Tok "Keyword" "else" 42 46 1;
             message := "Using 'else' is unnecessary here.";
             diag_fix := Some {| fix_range := (42, 57);
                                 fix_text := " bar(); " |} |} ] /\
   1 = classified_count deadTail_ast).
Proof.
  split.
  - split; [reflexivity|]. split; [reflexivity|]. split; [reflexivity|].
    exact (proj1 (proj2 one_diagnostic_per_eligible_chain)
             scenario5 scenario5_ast eq_refl eq_refl eq_refl).
  - split; [reflexivity|]. split; [reflexivity|].
    exact (proj1 one_diagnostic_per_eligible_chain deadTail deadTail_ast
             [ {| diag_node := Tok "Keyword" "else" 42 46 1;
                  message := "Using 'else' is unnecessary here.";
                  diag_fix := Some {| fix_range := (42, 57);
                                      fix_text := " bar(); " |} |} ]
             eq_refl eq_refl).
Defined.

(** ** The fix *)

Lemma test_hazard_begins (s : string) :
  test_hazard s = true <-> begins_with_hazard s.
Proof.
  unfold test_hazard, begins_with_hazard, hazard_chars.
  destruct s as [|c rest].
  - split; [done|]. by intros (? & ? & ? & _).
  - rewrite bool_decide_eq_true, !elem_of_cons, elem_of_nil. split.
    + intros H. exists c, rest. split; [done|tauto].
    + intros (c' & rest' & [= <- <-] & H). tauto.
Qed.

Lemma length_append (s t : string) :
  String.length (s +:+ t) = String.length s + String.length t.
Proof. induction s as [|c s IH]; simpl; [done|]. by rewrite IH. Qed.

Lemma substring_prefix (s t : string) :
  substring 0 (String.length s) (s +:+ t) = s.
Proof.
  induction s as [|c s IH]; simpl.
  - by destruct t.
  - by rewrite IH.
Qed.

(** [slice(1, -1)] removes the first and the last character. *)
Lemma slice_strips_ends (a b : ascii) (s : string) :
  slice (String a (s +:+ String b "")) 1 (-1) = s.
Proof.
  unfold slice, clamp. cbn [String.length]. rewrite length_append.
  cbn [String.length].
  replace (1 <? 0)%Z with false by done. replace (-1 <? 0)%Z with true by done.
  set (len := Z.of_nat (S (String.length s + 1))).
  replace (Z.to_nat (Z.min 1 len)) with 1 by lia.
  replace (Z.to_nat (Z.max (Z.max (len + -1) 0 - Z.min 1 len) 0))
    with (String.length s) by lia.
  cbn [substring]. apply substring_prefix.
Qed.

Lemma head_unsafe_hazard c li fe :
  head_unsafe c li fe = true <-> head_hazard c li fe.
Proof.
  unfold head_unsafe, head_hazard.
  rewrite !andb_true_iff, !negb_true_iff, !String.eqb_neq, test_hazard_begins.
  tauto.
Qed.

Lemma tail_unsafe_hazard le nxt :
  tail_unsafe le nxt = true <-> tail_hazard le nxt.
Proof.
  unfold tail_unsafe, tail_hazard.
  rewrite andb_true_iff, negb_true_iff, String.eqb_neq.
  destruct nxt as [nt|].
  - rewrite orb_true_iff, andb_true_iff, negb_true_iff, String.eqb_neq,
      Nat.eqb_eq, test_hazard_begins.
    split.
    + intros [H1 H2]. split; [done|]. by exists nt.
    + intros [H1 (nt' & [= <-] & H2)]. done.
  - split; [by intros [_ ?]|]. by intros [_ (? & ? & _)].
Qed.

Section FixFacts.
Variable sc : SourceCode.

Lemma report_fix_decision (parent n c : node) (st el li fe en le : Token) :
  node_consequent parent = Obj c ->
  getTokenBefore sc el = Some li ->
  (if is_open_brace st then getTokenAfter sc st else Some st) = Some fe ->
  getLastToken sc n = Some en ->
  getTokenBefore sc en = Some le ->
  report_fix sc parent n st el =
  Ok (if head_unsafe c li fe || tail_unsafe le (getTokenAfter sc en)
      then None
      else Some {| fix_range := (tok_start el, node_end n);
                   fix_text := if is_open_brace st
                               then slice (getText sc n) 1 (-1)
                               else getText sc n |}).
Proof.
  intros Hc Hli Hfe Hen Hle. unfold report_fix, head_unsafe, tail_unsafe.
  rewrite Hc, Hli, Hfe. simpl.
  destruct (negb (String.eqb (node_type c) "BlockStatement")); simpl;
    destruct (negb (String.eqb (tok_value li) ";")); simpl;
    destruct (test_hazard (tok_value fe)); simpl; try done;
    rewrite Hen; simpl; rewrite Hle; simpl;
    destruct (negb (String.eqb (tok_value le) ";")); simpl; try done;
    destruct (getTokenAfter sc en) as [nt|]; simpl; try done;
    destruct (test_hazard (tok_value nt) ||
              Nat.eqb (tok_line nt) (tok_line le) &&
              negb (String.eqb (tok_value nt) "}")); done.
Qed.

(** When a fix is produced, its range and text. *)
Lemma report_fix_some (parent n : node) (st el : Token) (f : Fix) :
  report_fix sc parent n st el = Ok (Some f) ->
  fix_range f = (tok_start el, node_end n) /\
  fix_text f = if is_open_brace st then slice (getText sc n) 1 (-1)
               else getText sc n.
Proof.
  unfold report_fix. intros H.
  apply bind_ok_inv in H as (c & _ & H).
  apply bind_ok_inv in H as (u & _ & H).
  apply bind_ok_inv in H as (fe & _ & H).
  destruct (u && test_hazard (tok_value fe)); [done|].
  apply bind_ok_inv in H as (en & _ & H).
  apply bind_ok_inv in H as (le & _ & H).
  match type of H with (if ?b then _ else _) = _ => destruct b end; [done|].
  injection H as <-. done.
Qed.

End FixFacts.

(** The rule's test for a braced body is the test for an opening brace
    token. *)
Lemma is_open_brace_opens (t : Token) :
  is_open_brace t = true <-> opens_with_brace t.
Proof.
  unfold is_open_brace, opens_with_brace.
  by rewrite andb_true_iff, !String.eqb_eq.
Qed.

Lemma is_open_brace_not_opens (t : Token) :
  is_open_brace t = false <-> ~ opens_with_brace t.
Proof.
  rewrite <- is_open_brace_opens. by destruct (is_open_brace t).
Qed.

(** For a braced else body the tokens the specification names are the
    tokens the rule looks at. *)
Lemma spec_withheld_braced (sc : SourceCode) (parent n c : node)
    (st el li fe en le : Token) :
  is_block n = true ->
  node_consequent parent = Obj c ->
  getFirstToken sc n = Some st ->
  getTokenBefore sc st = Some el ->
  getTokenBefore sc el = Some li ->
  getTokenAfter sc st = Some fe ->
  getLastToken sc n = Some en ->
  getTokenBefore sc en = Some le ->
  spec_withheld sc parent n <->
  head_hazard c li fe \/ tail_hazard le (getTokenAfter sc en).
Proof.
  intros B Hc Hst Hel Hli Hfe Hen Hle.
  unfold spec_withheld, spec_else_keyword, spec_first_token, spec_last_token,
    spec_next_token.
  rewrite B, Hc, Hst, Hen. simpl. rewrite Hel, Hfe, Hle. split.
  - intros [(c' & el' & li' & fe' & E1 & E2 & E3 & E4 & H)|(le' & E & H)].
    + injection E1 as <-. injection E2 as <-. injection E4 as <-.
      rewrite Hli in E3. injection E3 as <-. by left.
    + injection E as <-. by right.
  - intros [H|H].
    + left. by exists c, el, li, fe.
    + right. by exists le.
Qed.

(** For a braced final else whose tokens the store knows, [displayReport]
    reports at the [else] keyword and withholds the fix exactly when the
    head hazard or the tail hazard of the specification holds. *)
Lemma braced_fix_withheld_exactly (sc : SourceCode) (parent n c : node)
    (st el li fe en le : Token) :
  is_block n = true ->
  opens_with_brace st ->
  node_consequent parent = Obj c ->
  getFirstToken sc n = Some st ->
  getTokenBefore sc st = Some el ->
  getTokenBefore sc el = Some li ->
  getTokenAfter sc st = Some fe ->
  getLastToken sc n = Some en ->
  getTokenBefore sc en = Some le ->
  exists d,
    displayReport sc parent n = Ok d /\
    diag_node d = el /\
    (diag_fix d = None <-> spec_withheld sc parent n) /\
    (~ spec_withheld sc parent n -> exists f, diag_fix d = Some f).
Proof.
  intros B O Hc Hst Hel Hli Hfe Hen Hle.
  pose proof (spec_withheld_braced sc parent n c st el li fe en le
                B Hc Hst Hel Hli Hfe Hen Hle) as S.
  apply is_open_brace_opens in O.
  unfold displayReport. rewrite Hst. simpl. rewrite Hel. simpl.
  rewrite (report_fix_decision sc parent n c st el li fe en le);
    [|done|done|by rewrite O|done|done].
  simpl. eexists. split; [reflexivity|]. split; [reflexivity|]. simpl.
  rewrite S, <- head_unsafe_hazard, <- tail_unsafe_hazard, <- orb_true_iff.
  destruct (head_unsafe c li fe || tail_unsafe le (getTokenAfter sc en)).
  - split; [done|]. intros H. by destruct H.
  - split; [split; done|]. eauto.
Qed.

(** Claim C3 (when the fix is withheld), on an unbraced else body.  In
    [function f(){ if (a) { return x; } else b(); c(); }] the consequent is
    a braced block, so the head hazard does not hold, and the else body
    [b();] ends in a semicolon, so the tail hazard does not hold: the claim
    has a fix produced.  The rule reports at the [else] keyword and
    withholds the fix: it takes the token before the last token of the
    body, the closing parenthesis, not the semicolon, as the last token of
    the contents, although the body has no closing brace, and the next
    token [c] is on the same line. *)
Theorem unbraced_semicolon_fix_withheld :
  tokens_agree tailSemi = true /\
  well_formed tailSemi_ast = true /\
  ranges_agree tailSemi tailSemi_ast = true /\
  lint tailSemi tailSemi_ast =
    Ok [ {| diag_node := Tok "Keyword" "else" 35 39 1;
            message := "Using 'else' is unnecessary here.";
            diag_fix := None |} ] /\
  snd (spec_chain tailSemi_if1) = Some (tailSemi_if1, tailSemi_if1_else) /\
  is_block tailSemi_if1_then = true /\
  is_block tailSemi_if1_else = false /\
  getText tailSemi tailSemi_if1_else = "b();" /\
  spec_last_token tailSemi tailSemi_if1_else =
    Some (Tok "Punctuator" ";" 43 44 1) /\
  (en ← getLastToken tailSemi tailSemi_if1_else; getTokenBefore tailSemi en) =
    Some (Tok "Punctuator" ")" 42 43 1) /\
  spec_next_token tailSemi tailSemi_if1_else =
    Some (Tok "Identifier" "c" 45 46 1) /\
  ~ spec_withheld tailSemi tailSemi_if1 tailSemi_if1_else.
Proof.
  do 11 (split; [vm_compute; reflexivity|]).
  intros [(c & el & li & fe & Hc & _ & _ & _ & H & _)|(le & Hle & H & _)].
  - vm_compute in Hc. injection Hc as <-. by apply H.
  - vm_compute in Hle. injection Hle as <-. by apply H.
Qed.

(** Claim C1 (the fix of scenario 1 and its text in general).  Linting
    scenario 1 gives one diagnostic, at the [else] keyword, whose fix
    replaces the text from the start of [else] to the end of the else body
    by the body without its braces, which yields the expected program; for
    the unbraced else body of [foo3] the fix carries the body as it is.  In
    general a produced fix spans from the start of the [else] token to the
    end of the else body; when the first token of the body is an opening
    brace its text is the source of the body with the first and the last
    character removed, otherwise the source of the body; and where the
    tokens belong to the parse, so that a block and only a block begins
    with an opening brace, the text is the stripped source for a block and
    the source as it is for a single statement. *)
Theorem fix_strips_else_wrapper :
  (lint scenario1 scenario1_ast =
     Ok [ {| diag_node := Tok "Keyword" "else" 35 39 1;
             message := "Using 'else' is unnecessary here.";
             diag_fix := Some {| fix_range := (35, 53);
                                 fix_text := " return z; " |} |} ] /\
   is_block scenario1_if1_else = true /\
   getText scenario1 scenario1_if1_else = "{ return z; }" /\
   applyFix scenario1_text {| fix_range := (35, 53); fix_text := " return z; " |}
   = "function f(){ if (x) { return y; }  return z;  }") /\
  (lint foo3 foo3_ast =
     Ok [ {| diag_node := Tok "Keyword" "else" 38 42 1;
             message := "Using 'else' is unnecessary here.";
             diag_fix := Some {| fix_range := (38, 52);
                                 fix_text := "return y;" |} |} ] /\
   is_block foo3_if1_else = false /\
   getText foo3 foo3_if1_else = "return y;") /\
  (forall sc parent n d f,
     displayReport sc parent n = Ok d -> diag_fix d = Some f ->
     exists st el,
       getFirstToken sc n = Some st /\
       getTokenBefore sc st = Some el /\
       diag_node d = el /\
       fix_range f = (tok_start el, node_end n) /\
       (opens_with_brace st ->
          fix_text f = slice (getText sc n) 1 (-1) /\
          forall a s b, getText sc n = String a (s +:+ String b "") ->
                        fix_text f = s) /\
       (~ opens_with_brace st -> fix_text f = getText sc n) /\
       (parsed_body sc n ->
          (is_block n = true ->
             fix_text f = slice (getText sc n) 1 (-1) /\
             forall a s b, getText sc n = String a (s +:+ String b "") ->
                           fix_text f = s) /\
          (is_block n = false -> fix_text f = getText sc n))).
Proof.
  split; [|split].
  - repeat split; vm_compute; reflexivity.
  - repeat split; vm_compute; reflexivity.
  - intros sc parent n d f E F. unfold displayReport in E.
    apply bind_ok_inv in E as (st & Est & E).
    apply bind_ok_inv in E as (el & Eel & E).
    apply bind_ok_inv in E as (o & Eo & E). injection E as <-.
    simpl in F. subst o.
    apply report_fix_some in Eo as [R T].
    exists st, el.
    destruct (getFirstToken sc n) as [st'|] eqn:Hst; [|done].
    injection Est as ->.
    destruct (getTokenBefore sc st) as [el'|]; [|done]. injection Eel as ->.
    assert (Hbrace : opens_with_brace st ->
              fix_text f = slice (getText sc n) 1 (-1) /\
              forall a s b, getText sc n = String a (s +:+ String b "") ->
                            fix_text f = s).
    { intros B. apply is_open_brace_opens in B. rewrite B in T.
      split; [done|]. intros a s b G. rewrite T, G. apply slice_strips_ends. }
    assert (Hplain : ~ opens_with_brace st -> fix_text f = getText sc n).
    { intros B. apply is_open_brace_not_opens in B. by rewrite B in T. }
    split; [done|]. split; [done|]. split; [done|]. split; [done|].
    split; [exact Hbrace|]. split; [exact Hplain|].
    intros P. specialize (P st Hst). split.
    + intros B. apply Hbrace, P, B.
    + intros B. apply Hplain. intros O. apply P in O. congruence.
Qed.

Lemma fix_strips_else_wrapper_witness :
  (parsed_body scenario1 scenario1_if1_else /\
   is_block scenario1_if1_else = true /\
   " return z; " = slice (getText scenario1 scenario1_if1_else) 1 (-1)) /\
  (parsed_body foo3 foo3_if1_else /\
   is_block foo3_if1_else = false /\
   "return y;" = getText foo3 foo3_if1_else).
Proof.
  assert (P1 : parsed_body scenario1 scenario1_if1_else).
  { intros st E. vm_compute in E. injection E as <-.
    split; intros _; [split; reflexivity | reflexivity]. }
  assert (P3 : parsed_body foo3 foo3_if1_else).
  { intros st E. vm_compute in E. injection E as <-.
    split; [intros H | intros [_ H]]; vm_compute in H; discriminate H. }
  split.
  - split; [exact P1|]. split; [reflexivity|].
    destruct (proj2 (proj2 fix_strips_else_wrapper) scenario1 scenario1_if1
                scenario1_if1_else
                {| diag_node := Tok "Keyword" "else" 35 39 1;
                   message := "Using 'else' is unnecessary here.";
                   diag_fix := Some {| fix_range := (35, 53);
                                       fix_text := " return z; " |} |}
                {| fix_range := (35, 53); fix_text := " return z; " |}
                eq_refl eq_refl)
      as (st & el & _ & _ & _ & _ & _ & _ & H).
    exact (proj1 (proj1 (H P1) eq_refl)).
  - split; [exact P3|]. split; [reflexivity|].
    destruct (proj2 (proj2 fix_strips_else_wrapper) foo3 foo3_if1
                foo3_if1_else
                {| diag_node := Tok "Keyword" "else" 38 42 1;
                   message := "Using 'else' is unnecessary here.";
                   diag_fix := Some {| fix_range := (38, 52);
                                       fix_text := "return y;" |} |}
                {| fix_range := (38, 52); fix_text := "return y;" |}
                eq_refl eq_refl)
      as (st & el & _ & _ & _ & _ & _ & _ & H).
    exact (proj2 (H P3) eq_refl).
Defined.

(** The input of claim C4: the fix is produced, not withheld. *)
Lemma scenario4_fix_produced :
  exists d f, lint scenario4 scenario4_ast = Ok [d] /\ diag_fix d = Some f.
Proof. do 2 eexists. split; vm_compute; reflexivity. Qed.

(** Claim C4, as the code has it.  For [if (foo) return bar; else
    (foo).bar();] the rule emits one diagnostic at the [else] keyword and
    produces the fix that replaces [else (foo).bar();] by [(foo).bar();]:
    the consequent is unbraced and the else body begins with an opening
    parenthesis, but the token before [else] is a semicolon, so the head
    hazard does not hold; and although the token before the final semicolon
    of the else body is not a semicolon, no token follows the else body, so
    the tail hazard does not hold either. *)
Theorem scenario4_fixed :
  lint scenario4 scenario4_ast =
    Ok [ {| diag_node := Tok "Keyword" "else" 21 25 1;
            message := "Using 'else' is unnecessary here.";
            diag_fix := Some {| fix_range := (21, 38);
                                fix_text := "(foo).bar();" |} |} ] /\
  applyFix scenario4_text {| fix_range := (21, 38); fix_text := "(foo).bar();" |}
  = "if (foo) return bar; (foo).bar();" /\
  is_block scenario4_if1_then = false /\
  getTokenBefore scenario4 (Tok "Keyword" "else" 21 25 1)
  = Some (Tok "Punctuator" ";" 19 20 1) /\
  getFirstToken scenario4 scenario4_if1_else = Some (Tok "Punctuator" "(" 26 27 1) /\
  test_hazard "(" = true /\
  ~ head_hazard scenario4_if1_then (Tok "Punctuator" ";" 19 20 1)
      (Tok "Punctuator" "(" 26 27 1) /\
  getLastToken scenario4 scenario4_if1_else = Some (Tok "Punctuator" ";" 37 38 1) /\
  getTokenAfter scenario4 (Tok "Punctuator" ";" 37 38 1) = None /\
  ~ tail_hazard (Tok "Punctuator" ")" 36 37 1)
      (getTokenAfter scenario4 (Tok "Punctuator" ";" 37 38 1)).
Proof.
  repeat split; try (vm_compute; reflexivity).
  - intros (_ & H & _). by apply H.
  - intros (_ & nt & H & _). vm_compute in H. discriminate.
Qed.

(** ** Further properties of the chain analyser *)

(** The final else the loop ends at is not a conditional, and it is the
    [alternate] of the conditional it is paired with. *)
Lemma spec_chain_final (n q e : node) :
  snd (spec_chain n) = Some (q, e) ->
  is_if e = false /\ is_if q = true /\ node_alternate q = Obj e.
Proof.
  induction n as [r t c a _ _ IHa|r b _|ty r ch _] using node_ind';
    simpl; try done.
  destruct a as [a|]; simpl; [|done].
  destruct (is_if a) eqn:Ea; simpl.
  - apply IHa.
  - intros [= <- <-]. done.
Qed.

Section Reports.
Variable sc : SourceCode.

Lemma exit_reports (ancestor : option (node * key)) (n : node) ds :
  is_if n = true -> IfStatement_exit sc ancestor n = Ok ds ->
  ds = reports_at sc (ancestor, n).
Proof.
  intros Hn. destruct ancestor as [[p k]|]; [|done].
  unfold reports_at, independent_eligible, chain_head. simpl. rewrite Hn. simpl.
  destruct (is_if p && is_alternate k) eqn:G.
  - unfold IfStatement_exit. simpl. unfold is_if in G. rewrite G.
    by intros [= <-].
  - rewrite (exit_head sc p k n G Hn). unfold eligible_chain. simpl.
    destruct (spec_chain n) as [cs [[q e]|]]; simpl; [|by intros [= <-]].
    destruct (every alwaysHasControlFlow cs) as [[|]|]; simpl;
      [|by intros [= <-]|done].
    destruct (displayReport sc q e); simpl; [by intros [= <-]|done].
Qed.

Lemma traverseEach_reports (p : node) (k : key) (l : list node) :
  Forall (fun x => forall anc ds, traverse sc anc x = Ok ds ->
                   ds ≡ₚ flat_map (reports_at sc) (positions anc x)) l ->
  forall ds, traverseEach sc p k l = Ok ds ->
  ds ≡ₚ flat_map (reports_at sc) (positionsEach p k l).
Proof.
  induction 1 as [|x xs Hx _ IH]; simpl; intros ds E.
  - by injection E as <-.
  - apply bind_ok_inv in E as (d1 & E1 & E).
    apply bind_ok_inv in E as (d2 & E2 & E). injection E as <-.
    rewrite flat_map_app. apply Permutation_app; [by apply Hx|by apply IH].
Qed.

Lemma traverse_reports (n : node) :
  forall anc ds, traverse sc anc n = Ok ds ->
  ds ≡ₚ flat_map (reports_at sc) (positions anc n).
Proof.
  induction n as [r t c a IHt IHc IHa|r b IHb|ty r ch IHch] using node_ind';
    intros anc ds; rewrite traverse_unfold, positions_unfold;
    intros E; apply bind_ok_inv in E as (inner & Ei & E);
    apply bind_ok_inv in E as (own & Eo & E); injection E as <-;
    cbn [flat_map]; rewrite Permutation_app_comm; apply Permutation_app.
  - by rewrite (exit_reports anc (IfStatement r t c a) own eq_refl Eo).
  - simpl in Ei. simpl.
    apply bind_ok_inv in Ei as (dt & Et & Ei).
    apply bind_ok_inv in Ei as (dc & Ec & Ei).
    apply bind_ok_inv in Ei as (da & Ea & Ei). injection Ei as <-.
    rewrite !flat_map_app.
    apply Permutation_app; [by apply IHt|].
    apply Permutation_app; [by apply IHc|].
    destruct a as [a|]; [by apply IHa|by injection Ea as <-].
  - injection Eo as <-. done.
  - by apply (traverseEach_reports _ _ _ IHb).
  - destruct (is_if (OtherNode ty r ch)) eqn:Hn.
    + by rewrite (exit_reports _ _ _ Hn Eo).
    + injection Eo as <-. unfold reports_at, independent_eligible, chain_head.
      simpl. by rewrite Hn.
  - by apply (traverseEach_reports _ _ _ IHch).
Qed.

End Reports.

(** Extra X1.  What linting returns is, up to order, one diagnostic for
    each independent eligible chain of the program and nothing else: a
    diagnostic is returned exactly when it is what [displayReport] gives
    for the final else of a chain head in the tree whose consequents are
    all classified as terminating; that final else is never itself a
    conditional. *)
Theorem lint_reports_eligible_chains (sc : SourceCode) (root : node)
    (ds : list Diagnostic) :
  lint sc root = Ok ds ->
  ds ≡ₚ flat_map (reports_at sc) (positions None root) /\
  forall d, d ∈ ds <->
    exists anc n q e,
      (anc, n) ∈ positions None root /\
      chain_head anc n = true /\ eligible_chain n = true /\
      snd (spec_chain n) = Some (q, e) /\ is_if e = false /\
      displayReport sc q e = Ok d.
Proof.
  intros E. pose proof (traverse_reports sc root None ds E) as P.
  split; [exact P|]. intros d. rewrite P.
  rewrite list_elem_of_In, in_flat_map. split.
  - intros ([anc n] & Hin & Hd). exists anc, n.
    unfold reports_at, independent_eligible in Hd. simpl in Hd.
    destruct (chain_head anc n) eqn:Hc; [|done].
    destruct (eligible_chain n) eqn:He; [|done]. simpl in Hd.
    destruct (snd (spec_chain n)) as [[q e]|] eqn:Hs; [|done].
    exists q, e. destruct (displayReport sc q e) as [d'|] eqn:Hr; [|done].
    destruct Hd as [<-|[]].
    repeat split; try done.
    + by apply list_elem_of_In.
    + by destruct (spec_chain_final n q e Hs).
  - intros (anc & n & q & e & Hin & Hc & He & Hs & _ & Hr).
    exists (anc, n). split; [by apply list_elem_of_In|].
    unfold reports_at, independent_eligible. simpl.
    rewrite Hc, He, Hs, Hr. by left.
Qed.

Lemma lint_reports_eligible_chains_witness :
  lint scenario5 scenario5_ast =
    Ok [ {| diag_node := Tok "Keyword" "else" 44 48 1;
            message := "Using 'else' is unnecessary here.";
            diag_fix := Some {| fix_range := (44, 62);
                                fix_text := " return x; " |} |};
         {| diag_node := Tok "Keyword" "else" 65 69 1;
            message := "Using 'else' is unnecessary here.";
            diag_fix := Some {| fix_range := (65, 83);
                                fix_text := " return z; " |} |} ] /\
  [ {| diag_node := Tok "Keyword" "else" 44 48 1;
       message := "Using 'else' is unnecessary here.";
       diag_fix := Some {| fix_range := (44, 62);
                           fix_text := " return x; " |} |};
    {| diag_node := Tok "Keyword" "else" 65 69 1;
       message := "Using 'else' is unnecessary here.";
       diag_fix := Some {| fix_range := (65, 83);
                           fix_text := " return z; " |} |} ]
  ≡ₚ flat_map (reports_at scenario5) (positions None scenario5_ast).
Proof.
  split; [vm_compute; reflexivity|].
  exact (proj1 (lint_reports_eligible_chains scenario5 scenario5_ast _
                  ltac:(vm_compute; reflexivity))).
Defined.

(** Extra X2.  A program without an independent eligible chain is linted
    without a diagnostic and without a look at the source: whatever the
    source text and tokens are, even none, the result is the empty list. *)
Theorem no_eligible_chain_no_report (sc : SourceCode) (root : node) :
  well_formed root = true -> is_if root = false ->
  count_eligible root = 0 ->
  lint sc root = Ok [].
Proof.
  intros W R C.
  assert (N : forall pos, pos ∈ positions None root ->
                          independent_eligible pos = false).
  { intros pos Hin. apply list_elem_of_In in Hin.
    destruct (independent_eligible pos) eqn:E; [|done].
    assert (In pos (List.filter independent_eligible (positions None root)))
      as Hf by (apply filter_In; done).
    unfold count_eligible in C.
    destruct (List.filter independent_eligible (positions None root));
      [done|discriminate]. }
  destruct (traverse_total sc root None W) as [ds E].
  - intros H. congruence.
  - apply forallb_forall. intros pos Hin. unfold anchored_at.
    rewrite N; [done|by apply list_elem_of_In].
  - pose proof (traverse_count sc root None ds E) as L.
    change (count_in (positions None root)) with (count_eligible root) in L.
    rewrite C in L.
    unfold lint. rewrite E. by destruct ds.
Qed.

Lemma no_eligible_chain_no_report_witness :
  well_formed loopReturn_ast = true /\ is_if loopReturn_ast = false /\
  count_eligible loopReturn_ast = 0 /\
  lint {| text := ""; tokens := [] |} loopReturn_ast = Ok [].
Proof.
  split; [reflexivity|]. split; [reflexivity|]. split; [reflexivity|].
  exact (no_eligible_chain_no_report {| text := ""; tokens := [] |}
           loopReturn_ast eq_refl eq_refl eq_refl).
Defined.

(** Extra X3.  A chain is reported like the chain that starts at its first
    [else if]: when the first consequent is classified as terminating, the
    listener at the head returns what it would return at the second link
    were that link a head; when it is not, the listener returns nothing. *)
Theorem chain_head_defers_to_rest (sc : SourceCode) (p p' : node) (k k' : key)
    (r : nat * nat) (t c a : node) (v : value) :
  is_if p && is_alternate k = false ->
  is_if p' && is_alternate k' = false ->
  is_if a = true ->
  alwaysHasControlFlow c = Ok v ->
  IfStatement_exit sc (Some (p, k)) (IfStatement r t c (Some a)) =
  if truthy v then IfStatement_exit sc (Some (p', k')) a else Ok [].
Proof.
  intros G G' Ha Hv.
  rewrite (exit_head sc p k (IfStatement r t c (Some a)) G eq_refl),
    (exit_head sc p' k' a G' Ha).
  simpl. rewrite Ha. simpl. rewrite Hv. simpl.
  destruct (snd (spec_chain a)) as [[q e]|]; destruct (truthy v); done.
Qed.

Lemma chain_head_defers_to_rest_witness :
  IfStatement_exit scenario2 (Some (BlockStatement (12, 81) [scenario2_if1], KBody))
    scenario2_if1 =
  IfStatement_exit scenario2 (Some (BlockStatement (12, 81) [scenario2_if1], KBody))
    scenario2_if2.
Proof.
  exact (chain_head_defers_to_rest scenario2
           (BlockStatement (12, 81) [scenario2_if1])
           (BlockStatement (12, 81) [scenario2_if1]) KBody KBody
           (14, 79) (OtherNode "Identifier" (18, 19) []) scenario2_if1_then
           scenario2_if2 (VBool true) eq_refl eq_refl eq_refl eq_refl).
Defined.

Lemma is_if_replace_final_else (n e : node) :
  is_if (replace_final_else n e) = is_if n.
Proof.
  destruct n as [r t c [a|]|r b|ty r ch]; simpl; try done.
  by destruct (is_if a).
Qed.

Lemma spec_chain_replace_final_else (n e : node) :
  is_if e = false -> snd (spec_chain n) <> None ->
  fst (spec_chain (replace_final_else n e)) = fst (spec_chain n) /\
  exists q, snd (spec_chain (replace_final_else n e)) = Some (q, e).
Proof.
  intros He.
  induction n as [r t c a _ _ IHa|r b _|ty r ch _] using node_ind';
    simpl; try done.
  destruct a as [a|]; simpl; [|done].
  destruct (is_if a) eqn:Ea; simpl.
  - intros H. destruct (IHa H) as (F & q & S).
    rewrite is_if_replace_final_else, Ea. simpl. rewrite F, S. eauto.
  - intros _. rewrite He. simpl. eauto.
Qed.

(** Extra X4.  The final else is handed to [displayReport] unread: with
    any node that is not a conditional in its place the listener runs the
    same test on the same consequents and, when they pass, reports the new
    else body; so a chain is eligible or not whatever its final else
    contains. *)
Theorem final_else_not_inspected (sc : SourceCode) (p : node) (k : key)
    (n e : node) :
  is_if p && is_alternate k = false ->
  is_if n = true -> is_if e = false ->
  snd (spec_chain n) <> None ->
  eligible_chain (replace_final_else n e) = eligible_chain n /\
  exists q,
    IfStatement_exit sc (Some (p, k)) (replace_final_else n e) =
    (eligible ← every alwaysHasControlFlow (fst (spec_chain n));
     if (eligible : bool) then d ← displayReport sc q e; Ok [d] else Ok []).
Proof.
  intros G Hn He Hs.
  destruct (spec_chain_replace_final_else n e He Hs) as (F & q & S).
  split.
  - unfold eligible_chain.
    destruct (spec_chain (replace_final_else n e)) as [cs' o'].
    destruct (spec_chain n) as [cs o]. simpl in *. subst.
    by destruct o.
  - exists q. rewrite exit_head; [|done|by rewrite is_if_replace_final_else].
    by rewrite S, F.
Qed.

Lemma final_else_not_inspected_witness :
  eligible_chain (replace_final_else scenario1_if1 docsElse_if1_else)
  = eligible_chain scenario1_if1 /\
  exists q,
    IfStatement_exit docsElse
      (Some (BlockStatement (15, 69) [docsElse_if1], KBody))
      (replace_final_else scenario1_if1 docsElse_if1_else) =
    (eligible ← every alwaysHasControlFlow (fst (spec_chain scenario1_if1));
     if (eligible : bool) then d ← displayReport docsElse q docsElse_if1_else; Ok [d]
     else Ok []).
Proof.
  exact (final_else_not_inspected docsElse
           (BlockStatement (15, 69) [docsElse_if1]) KBody
           scenario1_if1 docsElse_if1_else eq_refl eq_refl eq_refl
           ltac:(discriminate)).
Defined.

(** ** Further properties of the classifier *)

Lemma existsb_Permutation {A : Type} (f : A -> bool) (l l' : list A) :
  l ≡ₚ l' -> existsb f l = existsb f l'.
Proof.
  induction 1 as [|x l l' _ IH|x y l|l l' l'' _ IH1 _ IH2]; simpl.
  - done.
  - by rewrite IH.
  - destruct (f x), (f y); done.
  - congruence.
Qed.

Lemma forallb_Permutation {A : Type} (f : A -> bool) (l l' : list A) :
  l ≡ₚ l' -> forallb f l = forallb f l'.
Proof.
  induction 1 as [|x l l' _ IH|x y l|l l' l'' _ IH1 _ IH2]; simpl.
  - done.
  - by rewrite IH.
  - destruct (f x), (f y); done.
  - congruence.
Qed.

(** Extra X5.  For the classification of a block only which statements it
    holds matters, not where they stand: the body made of two lists of
    statements is terminating exactly when the block of one of them is, and
    reordering the statements of a block does not change its
    classification. *)
Theorem block_classification_by_parts (r r1 r2 : nat * nat) (l1 l2 : list node) :
  forallb well_formed (l1 ++ l2) = true ->
  alwaysHasControlFlow (BlockStatement r (l1 ++ l2)) =
    Ok (VBool (passes (alwaysHasControlFlow (BlockStatement r1 l1)) ||
               passes (alwaysHasControlFlow (BlockStatement r2 l2)))) /\
  forall r' l', l1 ++ l2 ≡ₚ l' ->
    alwaysHasControlFlow (BlockStatement r' l') =
    alwaysHasControlFlow (BlockStatement r (l1 ++ l2)).
Proof.
  intros W. pose proof W as W'.
  rewrite forallb_app in W'. apply andb_true_iff in W' as [W1 W2].
  split.
  - rewrite !alwaysHasControlFlow_block by done. simpl.
    by rewrite existsb_app.
  - intros r' l' P.
    rewrite !alwaysHasControlFlow_block;
      [|done|by rewrite <- (forallb_Permutation _ _ _ P)].
    by rewrite (existsb_Permutation _ _ _ P).
Qed.

Lemma block_classification_by_parts_witness :
  forallb well_formed (take 1 deadTail_body ++ drop 1 deadTail_body) = true /\
  alwaysHasControlFlow
    (BlockStatement (21, 41) (take 1 deadTail_body ++ drop 1 deadTail_body)) =
  Ok (VBool (passes (alwaysHasControlFlow
                       (BlockStatement (21, 41) (take 1 deadTail_body))) ||
             passes (alwaysHasControlFlow
                       (BlockStatement (21, 41) (drop 1 deadTail_body))))).
Proof.
  split; [reflexivity|].
  exact (proj1 (block_classification_by_parts (21, 41) (21, 41) (21, 41)
                  (take 1 deadTail_body) (drop 1 deadTail_body) eq_refl)).
Defined.

Lemma naive_holds_inv (n : node) :
  well_formed n = true -> holds (naiveHasControlJump n) -> jump_last n = true.
Proof.
  intros W (v & E & T). rewrite naive_well_formed in E by done.
  injection E as <-. by rewrite naive_value_truthy in T.
Qed.

(** Extra X6.  The naive test is the stronger one: a well-formed node that
    [naiveHasControlJump] accepts (a jump, or a block ending in one) is also
    accepted by [alwaysHasControlFlow]. *)
Theorem naive_implies_always (n : node) :
  well_formed n = true ->
  holds (naiveHasControlJump n) -> holds (alwaysHasControlFlow n).
Proof.
  intros W H. pose proof (naive_holds_inv n W H) as J.
  destruct n as [r t c a|r b|ty r ch]; simpl in J.
  - done.
  - destruct (last b) as [s|] eqn:L; [|done].
    exists (VBool true). split; [|done].
    rewrite alwaysHasControlFlow_block by exact W. do 2 f_equal.
    apply existsb_exists. exists s. split.
    + apply list_elem_of_In. by apply last_Some_elem_of.
    + unfold checkForControlJumpOrIf, checkForControlJump. by rewrite J.
  - apply (well_formed_other ty r ch) in W as (_ & W & _).
    exists (VBool true). split; [|done].
    unfold alwaysHasControlFlow, checkForControlJumpOrIf, checkForControlJump.
    simpl. by rewrite W, J.
Qed.

Lemma naive_implies_always_witness :
  well_formed scenario1_if1_then = true /\
  holds (naiveHasControlJump scenario1_if1_then) /\
  holds (alwaysHasControlFlow scenario1_if1_then).
Proof.
  split; [reflexivity|].
  assert (H : holds (naiveHasControlJump scenario1_if1_then))
    by (exists (VBool true); split; reflexivity).
  split; [exact H|].
  exact (naive_implies_always scenario1_if1_then eq_refl H).
Defined.

(** Extra X7.  The classifier never looks inside a statement that is
    neither a jump nor a conditional: a block all of whose statements are of
    other kinds (loops, nested blocks, expressions, ...) is not terminating,
    whatever those statements contain. *)
Theorem no_descent_into_statements (r : nat * nat) (body : list node) :
  Forall (fun s => checkForControlJump s = false /\ is_if s = false) body ->
  alwaysHasControlFlow (BlockStatement r body) = Ok (VBool false).
Proof.
  intros H. unfold alwaysHasControlFlow. simpl.
  assert (E : some checkForControlJumpOrIf body = Ok false);
    [|by rewrite E].
  induction H as [|s l [J I] _ IH]; simpl; [done|].
  unfold checkForControlJumpOrIf. rewrite J, (checkForIf_not_if s I). simpl.
  exact IH.
Qed.

Lemma no_descent_into_statements_witness :
  alwaysHasControlFlow loopReturn_if1_then = Ok (VBool false).
Proof.
  apply no_descent_into_statements.
  repeat constructor.
Defined.

(** ** Further properties of the fix *)

Lemma append_assoc (a b c : string) : (a +:+ b) +:+ c = a +:+ (b +:+ c).
Proof.
  induction a as [|x a IH]; [done|].
  change (String x ((a +:+ b) +:+ c) = String x (a +:+ (b +:+ c))).
  by f_equal.
Qed.

Lemma append_cons (c : ascii) (a b : string) :
  String c a +:+ b = String c (a +:+ b).
Proof. reflexivity. Qed.

Lemma substring_prefix_of (m : nat) (s : string) :
  exists post, s = substring 0 m s +:+ post.
Proof.
  revert m. induction s as [|c s IH]; intros [|m]; simpl.
  - by exists "".
  - by exists "".
  - by exists (String c s).
  - destruct (IH m) as [post E]. exists post. by rewrite append_cons, <- E.
Qed.

Lemma substring_factor (n m : nat) (s : string) : factor (substring n m s) s.
Proof.
  revert n. induction s as [|c s IH]; intros n.
  - exists "", "". by destruct n, m.
  - destruct n as [|n].
    + destruct (substring_prefix_of m (String c s)) as [post E].
      by exists "", post.
    + simpl. destruct (IH n) as (pre & post & E).
      exists (String c pre), post. by rewrite append_cons, <- E.
Qed.

Lemma factor_trans (u v s : string) : factor u v -> factor v s -> factor u s.
Proof.
  intros (p1 & q1 & ->) (p2 & q2 & ->).
  exists (p2 +:+ p1), (q1 +:+ q2). by rewrite !append_assoc.
Qed.

Lemma substring_length_le (n m : nat) (s : string) :
  String.length (substring n m s) <= m /\
  String.length (substring n m s) <= String.length s - n.
Proof.
  revert n m. induction s as [|c s IH]; intros n m.
  - destruct n, m; simpl; lia.
  - destruct n as [|n].
    + destruct m as [|m]; simpl; [lia|]. destruct (IH 0 m). lia.
    + simpl. destruct (IH n m). lia.
Qed.

Lemma slice_factor (s : string) (a b : Z) : factor (slice s a b) s.
Proof. apply substring_factor. Qed.

Lemma getText_length (sc : SourceCode) (n : node) :
  String.length (getText sc n) <= node_end n - node_start n.
Proof.
  unfold getText, slice, clamp.
  destruct (substring_length_le
    (Z.to_nat (if (Z.of_nat (node_start n) <? 0)%Z
               then Z.max (Z.of_nat (String.length (text sc)) +
                           Z.of_nat (node_start n)) 0
               else Z.min (Z.of_nat (node_start n))
                          (Z.of_nat (String.length (text sc)))))
    (Z.to_nat (Z.max
       ((if (Z.of_nat (node_end n) <? 0)%Z
         then Z.max (Z.of_nat (String.length (text sc)) +
                     Z.of_nat (node_end n)) 0
         else Z.min (Z.of_nat (node_end n))
                    (Z.of_nat (String.length (text sc)))) -
        (if (Z.of_nat (node_start n) <? 0)%Z
         then Z.max (Z.of_nat (String.length (text sc)) +
                     Z.of_nat (node_start n)) 0
         else Z.min (Z.of_nat (node_start n))
                    (Z.of_nat (String.length (text sc))))) 0))
    (text sc)) as [H _].
  etrans; [exact H|].
  destruct (Z.ltb_spec (Z.of_nat (node_end n)) 0);
    destruct (Z.ltb_spec (Z.of_nat (node_start n)) 0); lia.
Qed.

Lemma slice_inner_length (s : string) :
  String.length (slice s 1 (-1)) <= String.length s - 2.
Proof.
  unfold slice, clamp.
  replace (1 <? 0)%Z with false by done. replace (-1 <? 0)%Z with true by done.
  destruct (substring_length_le
    (Z.to_nat (Z.min 1 (Z.of_nat (String.length s))))
    (Z.to_nat (Z.max (Z.max (Z.of_nat (String.length s) + -1) 0 -
                      Z.min 1 (Z.of_nat (String.length s))) 0)) s) as [H _].
  etrans; [exact H|]. lia.
Qed.

(** Extra X8.  A fix never writes text of its own: the replacement text
    occurs in the source as it stands, and it is no longer than the else
    body it replaces. *)
Theorem fix_text_from_source (sc : SourceCode) (parent n : node)
    (d : Diagnostic) (f : Fix) :
  displayReport sc parent n = Ok d -> diag_fix d = Some f ->
  factor (fix_text f) (text sc) /\
  String.length (fix_text f) <= node_end n - node_start n.
Proof.
  intros E F. unfold displayReport in E.
  apply bind_ok_inv in E as (st & _ & E).
  apply bind_ok_inv in E as (el & _ & E).
  apply bind_ok_inv in E as (o & Eo & E). injection E as <-.
  simpl in F. subst o. apply report_fix_some in Eo as [_ T]. rewrite T.
  pose proof (getText_length sc n) as L.
  destruct (is_open_brace st).
  - split.
    + eapply factor_trans; [apply slice_factor|]. apply slice_factor.
    + pose proof (slice_inner_length (getText sc n)). lia.
  - split; [apply slice_factor|exact L].
Qed.

Lemma fix_text_from_source_witness :
  factor " return z; " scenario1_text /\
  String.length " return z; " <= node_end scenario1_if1_else - node_start scenario1_if1_else.
Proof.
  exact (fix_text_from_source scenario1 scenario1_if1 scenario1_if1_else
           {| diag_node := Tok "Keyword" "else" 35 39 1;
              message := "Using 'else' is unnecessary here.";
              diag_fix := Some {| fix_range := (35, 53);
                                  fix_text := " return z; " |} |}
           {| fix_range := (35, 53); fix_text := " return z; " |}
           eq_refl eq_refl).
Defined.

(** Tokens in source order. *)
Lemma tokens_sorted_bounds (from : nat) (l : list Token) (t : Token) :
  tokens_sorted from l = true -> t ∈ l ->
  from <= tok_start t /\ tok_start t < tok_end t.
Proof.
  revert from. induction l as [|x l IH]; intros from S Hin.
  - by apply elem_of_nil in Hin.
  - simpl in S. apply andb_true_iff in S as [S S2].
    apply andb_true_iff in S as [S0 S1].
    apply Nat.leb_le in S0. apply Nat.ltb_lt in S1.
    apply elem_of_cons in Hin as [->|Hin]; [done|].
    destruct (IH _ S2 Hin). lia.
Qed.

Lemma tokens_sorted_after (from : nat) (l1 l2 : list Token) (x t : Token) :
  tokens_sorted from (l1 ++ x :: l2) = true -> t ∈ l2 ->
  tok_end x <= tok_start t.
Proof.
  revert from. induction l1 as [|y l1 IH]; intros from S Hin; simpl in S.
  - apply andb_true_iff in S as [_ S2].
    by destruct (tokens_sorted_bounds _ _ _ S2 Hin).
  - apply andb_true_iff in S as [_ S2]. by apply (IH _ S2).
Qed.

Lemma head_filter_split {A : Type} (P : A -> Prop) `{!forall x, Decision (P x)}
    (l : list A) (x : A) :
  head (filter P l) = Some x ->
  exists l1 l2, l = l1 ++ x :: l2 /\ Forall (fun y => ~ P y) l1 /\ P x.
Proof.
  induction l as [|y l IH]; [done|].
  rewrite filter_cons. destruct (decide (P y)) as [Py|Py]; simpl.
  - intros [= <-]. by exists [], l.
  - intros Hh. destruct (IH Hh) as (l1 & l2 & -> & F & Px).
    exists (y :: l1), l2. split; [done|]. split; [by constructor|done].
Qed.

(** Extra X9.  With the tokens in source order, a fix replaces a range that
    starts at the start of the token it is reported at, strictly before the
    else body, and ends where the else body ends: the [else] keyword and
    the whole body are replaced, and nothing after the body. *)
Theorem fix_range_covers_else (sc : SourceCode) (parent n : node)
    (d : Diagnostic) (f : Fix) :
  tokens_sorted 0 (tokens sc) = true ->
  displayReport sc parent n = Ok d -> diag_fix d = Some f ->
  fst (fix_range f) = tok_start (diag_node d) /\
  tok_start (diag_node d) < node_start n /\
  snd (fix_range f) = node_end n.
Proof.
  intros S E F. unfold displayReport in E.
  apply bind_ok_inv in E as (st & Est & E).
  apply bind_ok_inv in E as (el & Eel & E).
  apply bind_ok_inv in E as (o & Eo & E). injection E as <-.
  simpl in F. subst o. apply report_fix_some in Eo as [R _]. rewrite R. simpl.
  split; [done|]. split; [|done].
  destruct (getFirstToken sc n) as [st'|] eqn:Hst; [|done].
  injection Est as ->.
  destruct (getTokenBefore sc st) as [el'|] eqn:Hel; [|done].
  injection Eel as ->.
  unfold getFirstToken in Hst. unfold getTokenBefore in Hel.
  apply head_filter_split in Hst as (l1 & l2 & L & N & Pst).
  apply last_Some_elem_of, list_elem_of_filter in Hel as [Q Hin].
  rewrite L in S, Hin.
  assert (Bst : tok_start st < tok_end st).
  { apply (tokens_sorted_bounds 0 _ st S).
    apply elem_of_app. right. apply elem_of_cons. by left. }
  assert (Bel : tok_start el < tok_end el).
  { by apply (tokens_sorted_bounds 0 _ el S). }
  apply elem_of_app in Hin as [Hin|Hin].
  - rewrite Forall_forall in N. specialize (N el Hin). lia.
  - apply elem_of_cons in Hin as [->|Hin]; [lia|].
    pose proof (tokens_sorted_after 0 l1 l2 st el S Hin). lia.
Qed.

Lemma fix_range_covers_else_witness :
  tokens_sorted 0 (tokens scenario1) = true /\
  35 = tok_start (Tok "Keyword" "else" 35 39 1) /\
  tok_start (Tok "Keyword" "else" 35 39 1) < node_start scenario1_if1_else /\
  53 = node_end scenario1_if1_else.
Proof.
  split; [reflexivity|].
  exact (fix_range_covers_else scenario1 scenario1_if1 scenario1_if1_else
           {| diag_node := Tok "Keyword" "else" 35 39 1;
              message := "Using 'else' is unnecessary here.";
              diag_fix := Some {| fix_range := (35, 53);
                                  fix_text := " return z; " |} |}
           {| fix_range := (35, 53); fix_text := " return z; " |}
           eq_refl eq_refl eq_refl).
Defined.

(** ** Properties of the code-path variant *)

Lemma set_has_held (x : NodeRef) (s : list NodeRef) :
  set_has x s = true <-> ref_id x ∈ map ref_id s.
Proof.
  unfold set_has. rewrite existsb_exists, list_elem_of_fmap. split.
  - intros (y & Hy & E). apply Nat.eqb_eq in E. exists y.
    split; [done|by apply list_elem_of_In].
  - intros (y & E & Hy). exists y.
    split; [by apply list_elem_of_In|by apply Nat.eqb_eq].
Qed.

Lemma held_set_add (x : NodeRef) (s : list NodeRef) (i : nat) :
  i ∈ map ref_id (set_add x s) <-> i ∈ map ref_id s \/ i = ref_id x.
Proof.
  unfold set_add. destruct (set_has x s) eqn:H.
  - apply set_has_held in H. split; [by left|]. by intros [?| ->].
  - rewrite fmap_app, elem_of_app. simpl. rewrite list_elem_of_singleton. done.
Qed.

Lemma held_set_delete (x : NodeRef) (s : list NodeRef) (i : nat) :
  i ∈ map ref_id (set_delete x s) <-> i ∈ map ref_id s /\ i <> ref_id x.
Proof.
  unfold set_delete. rewrite !list_elem_of_fmap. split.
  - intros (y & -> & Hy). apply list_elem_of_In, filter_In in Hy as [Hy N].
    apply negb_true_iff, Nat.eqb_neq in N.
    split; [|done]. exists y. split; [done|by apply list_elem_of_In].
  - intros [(y & -> & Hy) N]. exists y. split; [done|].
    apply list_elem_of_In, filter_In. split; [by apply list_elem_of_In|].
    by apply negb_true_iff, Nat.eqb_neq.
Qed.

Lemma snoc_eq_split {A : Type} (l l1 l2 : list A) (a x : A) :
  l ++ [a] = l1 ++ x :: l2 ->
  (l2 = [] /\ l = l1 /\ a = x) \/
  (exists l2', l2 = l2' ++ [a] /\ l = l1 ++ x :: l2').
Proof.
  destruct l2 as [|y l2 _] using rev_ind; intros E.
  - left. apply app_inj_tail in E as [-> ->]. done.
  - right. exists l2.
    change (l ++ [a] = l1 ++ (x :: l2) ++ [y]) in E.
    rewrite app_assoc in E. apply app_inj_tail in E as [-> ->]. done.
Qed.

Lemma segment_open_snoc (es : list event) (e : event) (i : nat) :
  segment_open (es ++ [e]) i <->
  (segment_open es i /\
   forall seg m, e = CodePathSegmentEnd seg m -> ref_id m = i ->
                 consequentWithElse m = false) \/
  (exists seg n, e = CodePathSegmentStart seg n /\ ref_id n = i /\
                 consequentWithElse n = true).
Proof.
  split.
  - intros (es1 & seg & n & es2 & E & I & Q & N).
    apply snoc_eq_split in E as [(-> & -> & ->)|(es2' & -> & ->)].
    + right. by exists seg, n.
    + left. split.
      * exists es1, seg, n, es2'. repeat split; try done.
        intros seg' m Hin. apply (N seg'). apply elem_of_app. by left.
      * intros seg' m ->. apply (N seg'). apply elem_of_app. right.
        by apply list_elem_of_singleton.
  - intros [[(es1 & seg & n & es2 & -> & I & Q & N) He]|(seg & n & -> & I & Q)].
    + exists es1, seg, n, (es2 ++ [e]). rewrite <- app_assoc. simpl.
      repeat split; try done.
      intros seg' m Hin. apply elem_of_app in Hin as [Hin|Hin].
      * by apply (N seg').
      * apply list_elem_of_singleton in Hin. by apply (He seg').
    + exists es, seg, n, []. repeat split; try done.
      intros seg' m Hin. by apply elem_of_nil in Hin.
Qed.

Lemma dispatchAll_snoc (es : list event) (e : event) (st : ListenerState) :
  dispatchAll (es ++ [e]) st = dispatch (dispatchAll es st) e.
Proof. unfold dispatchAll. by rewrite fold_left_app. Qed.

(** Extra X10.  After any sequence of events the set holds exactly the
    consequents of conditionals with an else at which a segment started
    with no segment ending there afterwards; events at other nodes, and
    the start and end of code paths, do not count. *)
Theorem held_iff_segment_open (es : list event) (i : nat) :
  i ∈ held (dispatchAll es initialState) <-> segment_open es i.
Proof.
  induction es as [|e es IH] using rev_ind.
  - split.
    + intros H. by apply elem_of_nil in H.
    + intros (es1 & seg & n & es2 & E & _). by destruct es1.
  - rewrite dispatchAll_snoc, segment_open_snoc, <- IH.
    unfold held in *. destruct e as [cp| |seg n|seg m]; simpl.
    + split; [intros H; left; split; [done|by intros ? ? [=]]|].
      intros [[H _]|(? & ? & [=] & _)]. done.
    + split; [intros H; left; split; [done|by intros ? ? [=]]|].
      intros [[H _]|(? & ? & [=] & _)]. done.
    + unfold onCodePathSegmentStart.
      destruct (consequentWithElse n) eqn:Q; simpl.
      * rewrite held_set_add. split.
        -- intros [H| ->]; [left; split; [done|by intros ? ? [=]]|].
           right. by exists seg, n.
        -- intros [[H _]|(? & ? & [= <- <-] & <- & _)]; [by left|by right].
      * split; [intros H; left; split; [done|by intros ? ? [=]]|].
        intros [[H _]|(? & ? & [= <- <-] & _ & Q')]; [done|congruence].
    + unfold onCodePathSegmentEnd.
      destruct (consequentWithElse m) eqn:Q; simpl.
      * rewrite held_set_delete. split.
        -- intros [H N]. left. split; [done|].
           intros ? ? [= <- <-] E. by destruct N.
        -- intros [[H N]|(? & ? & [=] & _)]. split; [done|].
           intros ->. specialize (N seg m eq_refl eq_refl). congruence.
      * split; [intros H; left; split; [done|by intros ? ? [= <- <-]]|].
        intros [[H _]|(? & ? & [=] & _)]. done.
Qed.

Lemma held_iff_segment_open_witness :
  21 ∈ held (dispatchAll
               [CodePathStart 0;
                CodePathSegmentStart 1 scenario1_then_ref;
                CodePathSegmentStart 2 scenario1_else_ref;
                CodePathEnd] initialState).
Proof.
  apply held_iff_segment_open.
  exists [CodePathStart 0], 1, scenario1_then_ref,
    [CodePathSegmentStart 2 scenario1_else_ref; CodePathEnd].
  split; [reflexivity|]. split; [reflexivity|]. split; [reflexivity|].
  intros seg' m Hin. apply list_elem_of_In in Hin. simpl in Hin.
  destruct Hin as [Hin|[Hin|[]]]; discriminate Hin.
Defined.

Lemma NoDup_set_delete (x : NodeRef) (s : list NodeRef) :
  NoDup (map ref_id s) -> NoDup (map ref_id (set_delete x s)).
Proof.
  induction s as [|y l IH]; intros N; [constructor|].
  change (map ref_id (y :: l)) with (ref_id y :: map ref_id l) in N.
  apply NoDup_cons in N as [Ny Nl].
  unfold set_delete. cbn [List.filter].
  destruct (negb (Nat.eqb (ref_id y) (ref_id x))); [|by apply IH].
  change (NoDup (ref_id y :: map ref_id (set_delete x l))).
  apply NoDup_cons. split; [|by apply IH].
  intros Hin. apply held_set_delete in Hin as [Hin _]. done.
Qed.

(** The node objects the set holds were all added by a segment start that
    passed the test, and none is held twice. *)
Lemma held_invariant (es : list event) :
  NoDup (held (dispatchAll es initialState)) /\
  Forall (fun n => consequentWithElse n = true)
         (consequentsWithSegments (dispatchAll es initialState)).
Proof.
  induction es as [|e es [N F]] using rev_ind.
  - split; constructor.
  - rewrite dispatchAll_snoc. unfold held in *.
    destruct e as [cp| |seg n|seg m]; simpl; try done.
    + unfold onCodePathSegmentStart.
      destruct (consequentWithElse n) eqn:Q; simpl; [|done].
      unfold set_add. destruct (set_has n _) eqn:H; [done|].
      split.
      * rewrite fmap_app. apply NoDup_app. split; [done|]. split.
        -- intros x Hx Hin. apply list_elem_of_singleton in Hin. subst x.
           apply set_has_held in Hx. congruence.
        -- apply NoDup_singleton.
      * apply Forall_app. split; [done|]. by repeat constructor.
    + unfold onCodePathSegmentEnd.
      destruct (consequentWithElse m) eqn:Q; simpl; [|done].
      split.
      * by apply NoDup_set_delete.
      * unfold set_delete. apply Forall_forall. intros x Hx.
        apply list_elem_of_In, filter_In in Hx as [Hx _].
        rewrite Forall_forall in F. apply F. by apply list_elem_of_In.
Qed.

Lemma consequentWithElse_inv (n : NodeRef) :
  consequentWithElse n = true ->
  exists p a, ref_parent n = Some (p, KConsequent) /\
              is_if p = true /\ node_alternate p = Obj a.
Proof.
  unfold consequentWithElse. destruct (ref_parent n) as [[p k]|]; [|done].
  intros H. apply andb_true_iff in H as [H A].
  apply andb_true_iff in H as [I C].
  destruct (node_consequent p); try done. destruct k; try done.
  destruct (node_alternate p) as [| |a] eqn:E; try done.
  exists p, a. split; [done|]. split; [exact I|exact E].
Qed.

Lemma Program_exit_consequents (sc : SourceCode) (s : list NodeRef) :
  Forall (fun n => consequentWithElse n = true) s ->
  (forall ds, Program_exit sc s = Ok ds -> length ds = length s) /\
  (Program_exit sc s = TypeError ->
   exists n p a, n ∈ s /\ ref_parent n = Some (p, KConsequent) /\
                 node_alternate p = Obj a /\
                 displayReport sc p a = TypeError).
Proof.
  induction 1 as [|n s Q _ [IH1 IH2]]; simpl.
  - split; [by intros ds [= <-]|done].
  - destruct (consequentWithElse_inv n Q) as (p & a & Hp & _ & A).
    rewrite Hp. simpl. rewrite A. simpl.
    destruct (displayReport sc p a) as [d|] eqn:R; simpl.
    + destruct (Program_exit sc s) as [ds'|]; simpl.
      * split; [|done]. intros ds [= <-]. simpl. f_equal. by apply IH1.
      * split; [done|]. intros _.
        destruct (IH2 eq_refl) as (n' & p' & a' & Hin & Hp' & Ha & Hr).
        exists n', p', a'. split; [by apply elem_of_cons; right|done].
    + split; [done|]. intros _. exists n, p, a.
      split; [by apply elem_of_cons; left|done].
Qed.

(** Extra X11.  Whatever events came before, at [Program:exit] every node
    of the set is the consequent of a conditional that has an else, and no
    node is held twice: each such consequent gives one call of
    [displayReport], on that else, so the listener returns one diagnostic
    per held consequent, and it can only throw where [displayReport]
    does. *)
Theorem Program_exit_reports_held (sc : SourceCode) (es : list event) :
  NoDup (held (dispatchAll es initialState)) /\
  (forall n, n ∈ consequentsWithSegments (dispatchAll es initialState) ->
     exists p a, ref_parent n = Some (p, KConsequent) /\
                 is_if p = true /\ node_alternate p = Obj a) /\
  (forall ds,
     Program_exit sc (consequentsWithSegments (dispatchAll es initialState))
     = Ok ds ->
     length ds = length (held (dispatchAll es initialState))) /\
  (Program_exit sc (consequentsWithSegments (dispatchAll es initialState))
   = TypeError ->
   exists n p a,
     n ∈ consequentsWithSegments (dispatchAll es initialState) /\
     ref_parent n = Some (p, KConsequent) /\ node_alternate p = Obj a /\
     displayReport sc p a = TypeError).
Proof.
  destruct (held_invariant es) as [N F].
  destruct (Program_exit_consequents sc _ F) as [P1 P2].
  split; [exact N|]. split; [|split].
  - intros n Hin. rewrite Forall_forall in F.
    by apply consequentWithElse_inv, F.
  - intros ds E. unfold held. rewrite length_map. by apply P1.
  - exact P2.
Qed.

Lemma Program_exit_reports_held_witness :
  Program_exit scenario1
    (consequentsWithSegments
       (dispatchAll [CodePathSegmentStart 1 scenario1_then_ref] initialState))
  = lint scenario1 scenario1_ast /\
  1 = length (held (dispatchAll [CodePathSegmentStart 1 scenario1_then_ref]
                      initialState)).
Proof.
  split; [vm_compute; reflexivity|].
  exact (proj1 (proj2 (proj2 (Program_exit_reports_held scenario1
                                [CodePathSegmentStart 1 scenario1_then_ref])))
           [ {| diag_node := Tok "Keyword" "else" 35 39 1;
                message := "Using 'else' is unnecessary here.";
                diag_fix := Some {| fix_range := (35, 53);
                                    fix_text := " return z; " |} |} ]
           ltac:(vm_compute; reflexivity)).
Defined.
